(** * The UCL emitter: a shallow embedding of [external/libucl/src/ucl_emitter.c]

    The emitter walks an already built tree of [ucl_object_t] nodes and
    appends text to one growable buffer, in one of three formats (JSON,
    the native configuration syntax RCL, and a flow-style YAML).  Every C
    function that takes [UT_string *buf] is embedded as a function from
    the buffer contents before the call to the buffer contents after it. *)

From Stdlib Require Import String Ascii Bool ZArith NArith List Lia.
From Stdlib Require Import DecimalString PrimFloat.
Import ListNotations.

Local Open Scope string_scope.

(** ** Characters and C strings *)

Definition NUL : ascii := "000"%char.
Definition BS : ascii := "008"%char.
Definition HT : ascii := "009"%char.
Definition LF : ascii := "010"%char.
Definition FF : ascii := "012"%char.
Definition CR : ascii := "013"%char.
Definition SP : ascii := "032"%char.
Definition DQUOTE : ascii := "034"%char.
Definition BACKSLASH : ascii := "092"%char.

(** One-character strings used when spelling out expected outputs. *)
Definition nl : string := String LF "".
Definition dq : string := String DQUOTE "".

(** A [const char *] is embedded as the bytes found at the pointer; the
    C code stops reading at the first NUL byte, so the text of a string
    is the part before it.  [strlen] counts exactly those bytes. *)
Fixpoint strlen (s : string) : nat :=
  match s with
  | EmptyString => 0
  | String c s' => if Ascii.eqb c NUL then 0 else S (strlen s')
  end.

(** The bytes a C function sees in [s]. *)
Definition c_str (s : string) : string := substring 0 (strlen s) s.

(** [s] holds no NUL byte: it is the text of a C string. *)
Fixpoint nul_free (s : string) : bool :=
  match s with
  | EmptyString => true
  | String c s' => negb (Ascii.eqb c NUL) && nul_free s'
  end.

(** ** The output buffer *)

Module Utstring.

(** Modelled from the spec: the growable append-only byte buffer of
    utstring.h, which is not part of the emitter's source file.  The
    buffer is its contents; appending never fails. *)
Definition UT_string : Type := string.

(** Modelled from the spec: a new buffer is empty. *)
Definition utstring_new : UT_string := "".

(** Modelled from the spec: append one byte. *)
Definition utstring_append_c (buf : UT_string) (c : ascii) : UT_string :=
  buf ++ String c "".

(** Modelled from the spec: append the first [len] bytes of [src]. *)
Definition utstring_append_len (buf : UT_string) (src : string) (len : nat)
  : UT_string :=
  buf ++ substring 0 len src.

(** Modelled from the spec: append a formatted numeral or text, given
    the text that [printf] produces for the format and its argument. *)
Definition utstring_printf (buf : UT_string) (formatted : string) : UT_string :=
  buf ++ formatted.

(** Modelled from the spec: the final contents of the buffer. *)
Definition utstring_body (buf : UT_string) : string := buf.

End Utstring.
Import Utstring.

(** [unsigned int] arithmetic: [tabs + 1] wraps at 2^32. *)
Definition UINT_MODULUS : N := 4294967296.
Definition uint_succ (tabs : N) : N := ((tabs + 1) mod UINT_MODULUS)%N.

(** ** Formatted numerals *)

(** The cast [(long int)] of a 64-bit integer, [long int] being 64 bits
    wide: the value modulo 2^64, in the signed range. *)
Definition long_int (iv : Z) : Z :=
  ((iv + 9223372036854775808) mod 18446744073709551616 - 9223372036854775808)%Z.

(** [printf] with the conversion [%ld]: the decimal text of a signed integer. *)
Definition printf_ld (iv : Z) : string := NilZero.string_of_int (Z.to_int iv).

(** [printf] with the conversion [%s]. *)
Definition printf_s (s : string) : string := c_str s.

(** A C [double]. *)
Definition double : Type := PrimFloat.float.

(** ** The document tree

    A node carries its key, its type tag with the payload of that type,
    the sibling link [next] and the link [hh.next] to the following
    member of the hash table it is stored in.  For an object or an array
    the payload [value.ov] points to the first member or element.

    The declarations of ucl.h and uthash.h are not part of the emitter's
    source file.  The tag and the union of the C structure are one
    constructor with its payload, so that [ucl_obj_toint],
    [ucl_obj_todouble], [ucl_obj_toboolean] and [ucl_obj_tostring],
    which the emitter calls under the matching tag only, are the
    payload of the constructor; [HASH_ITER] visits the members of a
    table in insertion order by following [hh.next] from its head, the
    link that the emitter itself reads in [cur->hh.next]. *)
Inductive ucl_object_t : Type :=
| UclObject (key : string) (value : ucl_value) (next : ucl_ptr) (hh_next : ucl_ptr)
with ucl_value : Type :=
| UCL_OBJECT (ov : ucl_ptr)
| UCL_ARRAY (ov : ucl_ptr)
| UCL_INT (iv : Z)
| UCL_FLOAT (dv : double)
| UCL_STRING (sv : string)
| UCL_BOOLEAN (bv : bool)
| UCL_TIME (dv : double)
| UCL_USERDATA
with ucl_ptr : Type :=
| NULL
| Ptr (o : ucl_object_t).

Scheme ucl_object_t_mut := Induction for ucl_object_t Sort Prop
  with ucl_value_mut := Induction for ucl_value Sort Prop
  with ucl_ptr_mut := Induction for ucl_ptr Sort Prop.
Combined Scheme ucl_tree_ind from ucl_object_t_mut, ucl_value_mut, ucl_ptr_mut.

Definition obj_key (o : ucl_object_t) : string :=
  match o with UclObject key _ _ _ => key end.
Definition obj_value (o : ucl_object_t) : ucl_value :=
  match o with UclObject _ value _ _ => value end.
Definition obj_next (o : ucl_object_t) : ucl_ptr :=
  match o with UclObject _ _ next _ => next end.
Definition obj_hh_next (o : ucl_object_t) : ucl_ptr :=
  match o with UclObject _ _ _ hh_next => hh_next end.

Definition is_null (p : ucl_ptr) : bool :=
  match p with NULL => true | Ptr _ => false end.

(** [type == UCL_OBJECT || type == UCL_ARRAY] *)
Definition is_container (v : ucl_value) : bool :=
  match v with
  | UCL_OBJECT _ | UCL_ARRAY _ => true
  | _ => false
  end.

(** ** Indentation and string literals *)

(** [while (!compact && tabs--) append four spaces] *)
Definition ucl_add_tabs (buf : UT_string) (tabs : N) (compact : bool) : UT_string :=
  if compact then buf
  else N.iter tabs (fun buf => utstring_append_len buf "    " 4) buf.

(** The loop of [ucl_elt_string_write_json]: [p] is the rest of the
    string, the loop ends at the terminating NUL. *)
Fixpoint ucl_elt_string_write_json_loop (p : string) (buf : UT_string) : UT_string :=
  match p with
  | EmptyString => buf
  | String c p' =>
      if Ascii.eqb c NUL then buf
      else
        let buf :=
          match c with
          | "010"%char => utstring_append_len buf "\n" 2
          | "013"%char => utstring_append_len buf "\r" 2
          | "008"%char => utstring_append_len buf "\b" 2
          | "009"%char => utstring_append_len buf "\t" 2
          | "012"%char => utstring_append_len buf "\f" 2
          | "092"%char => utstring_append_len buf "\\" 2
          | "034"%char => utstring_append_len buf (String BACKSLASH dq) 2
          | _ => utstring_append_c buf c
          end in
        ucl_elt_string_write_json_loop p' buf
  end.

Definition ucl_elt_string_write_json (str : string) (buf : UT_string) : UT_string :=
  let buf := utstring_append_c buf DQUOTE in
  let buf := ucl_elt_string_write_json_loop str buf in
  utstring_append_c buf DQUOTE.

(** ** Functions used to state the properties *)

(** The escaping rule in the words of the specification: seven
    characters are replaced by a backslash and a letter, every other
    character is copied. *)
Definition json_escape_char (c : ascii) : string :=
  if Ascii.eqb c LF then "\n"
  else if Ascii.eqb c CR then "\r"
  else if Ascii.eqb c BS then "\b"
  else if Ascii.eqb c HT then "\t"
  else if Ascii.eqb c FF then "\f"
  else if Ascii.eqb c BACKSLASH then "\\"
  else if Ascii.eqb c DQUOTE then String BACKSLASH dq
  else String c "".

Fixpoint json_escape (s : string) : string :=
  match s with
  | EmptyString => ""
  | String c s' => json_escape_char c ++ json_escape s'
  end.

(** The characters the escaper replaces. *)
Definition is_special (c : ascii) : bool :=
  Ascii.eqb c LF || Ascii.eqb c CR || Ascii.eqb c BS || Ascii.eqb c HT
  || Ascii.eqb c FF || Ascii.eqb c BACKSLASH || Ascii.eqb c DQUOTE.

Fixpoint no_special (s : string) : bool :=
  match s with
  | EmptyString => true
  | String c s' => negb (is_special c) && no_special s'
  end.

(** JSON unescaping of the two-character escapes (RFC 8259, section 7);
    the escape that names a code point by four hexadecimal digits is
    never produced by the escaper and is rejected here. *)
Definition json_unescape_char (c : ascii) : option ascii :=
  if Ascii.eqb c "n" then Some LF
  else if Ascii.eqb c "r" then Some CR
  else if Ascii.eqb c "b" then Some BS
  else if Ascii.eqb c "t" then Some HT
  else if Ascii.eqb c "f" then Some FF
  else if Ascii.eqb c BACKSLASH then Some BACKSLASH
  else if Ascii.eqb c DQUOTE then Some DQUOTE
  else if Ascii.eqb c "/" then Some "/"%char
  else None.

Fixpoint json_unescape (s : string) : option string :=
  match s with
  | EmptyString => Some ""
  | String c s' =>
      if Ascii.eqb c BACKSLASH then
        match s' with
        | EmptyString => None
        | String e s'' =>
            match json_unescape_char e, json_unescape s'' with
            | Some c', Some r => Some (String c' r)
            | _, _ => None
            end
        end
      else if Ascii.eqb c DQUOTE then None
      else option_map (String c) (json_unescape s')
  end.

(** Removal of the quotation mark that closes a literal. *)
Fixpoint strip_closing_quote (s : string) : option string :=
  match s with
  | EmptyString => None
  | String c s' =>
      match s' with
      | EmptyString => if Ascii.eqb c DQUOTE then Some "" else None
      | String _ _ => option_map (String c) (strip_closing_quote s')
      end
  end.

(** Removal of the two quotation marks around a literal. *)
Definition strip_quotes (s : string) : option string :=
  match s with
  | EmptyString => None
  | String c s' => if Ascii.eqb c DQUOTE then strip_closing_quote s' else None
  end.

Definition parse_json_string (s : string) : option string :=
  match strip_quotes s with
  | Some body => json_unescape body
  | None => None
  end.

(** A reader of JSON text is outside a string literal, inside one, or
    just after a backslash inside one. *)
Inductive lex_state : Type := Outside | InString | InEscape.

Definition lex_step (st : lex_state) (c : ascii) : lex_state :=
  match st with
  | Outside => if Ascii.eqb c DQUOTE then InString else Outside
  | InString =>
      if Ascii.eqb c BACKSLASH then InEscape
      else if Ascii.eqb c DQUOTE then Outside
      else InString
  | InEscape => InString
  end.

Fixpoint lex_run (st : lex_state) (s : string) : lex_state :=
  match s with
  | EmptyString => st
  | String c s' => lex_run (lex_step st c) s'
  end.

(** No space and no newline is read outside of a string literal. *)
Fixpoint no_blank_outside (st : lex_state) (s : string) : bool :=
  match s with
  | EmptyString => true
  | String c s' =>
      match st with
      | Outside => negb (Ascii.eqb c SP || Ascii.eqb c LF)
      | _ => true
      end && no_blank_outside (lex_step st c) s'
  end.

(** The text of a numeral: no space, no newline, no quotation mark. *)
Fixpoint numeral_text (s : string) : bool :=
  match s with
  | EmptyString => true
  | String c s' =>
      negb (Ascii.eqb c SP || Ascii.eqb c LF || Ascii.eqb c DQUOTE)
      && numeral_text s'
  end.

(** One more level of indentation for every line that starts in [s]:
    four spaces are inserted after each newline. *)
Fixpoint indent_lines (s : string) : string :=
  match s with
  | EmptyString => ""
  | String c s' =>
      if Ascii.eqb c LF then String LF ("    " ++ indent_lines s')
      else String c (indent_lines s')
  end.

(** [4 * tabs] spaces. *)
Definition spaces (tabs : N) : string := N.iter tabs (append "    ") "".

(** How many levels of indentation the JSON renderer adds below the
    level it is started at: one for an object, an explicit array and an
    implicit array, on top of what their members need. *)
Fixpoint json_nesting (value : ucl_value) : N :=
  match value with
  | UCL_OBJECT ov => 1 + json_nesting_members ov
  | UCL_ARRAY ov => 1 + json_nesting_elements ov
  | _ => 0
  end
with json_nesting_members (cur : ucl_ptr) : N :=
  match cur with
  | NULL => 0
  | Ptr (UclObject _ value next hh_next) =>
      N.max
        (match next with
         | NULL => json_nesting value
         | Ptr _ => 1 + N.max (json_nesting value) (json_nesting_elements next)
         end)
        (json_nesting_members hh_next)
  end
with json_nesting_elements (cur : ucl_ptr) : N :=
  match cur with
  | NULL => 0
  | Ptr (UclObject _ value next _) =>
      N.max (json_nesting value) (json_nesting_elements next)
  end.


Definition is_userdata (v : ucl_value) : bool :=
  match v with UCL_USERDATA => true | _ => false end.

(** No element of an explicit or implicit array is a user-data node. *)
Fixpoint elements_emit (value : ucl_value) : bool :=
  match value with
  | UCL_OBJECT ov => elements_emit_members ov
  | UCL_ARRAY ov => elements_emit_elements ov
  | _ => true
  end
with elements_emit_members (cur : ucl_ptr) : bool :=
  match cur with
  | NULL => true
  | Ptr (UclObject _ value next hh_next) =>
      match next with
      | NULL => elements_emit value
      | Ptr _ =>
          negb (is_userdata value) && elements_emit value
          && elements_emit_elements next
      end
      && elements_emit_members hh_next
  end
with elements_emit_elements (cur : ucl_ptr) : bool :=
  match cur with
  | NULL => true
  | Ptr (UclObject _ value next _) =>
      negb (is_userdata value) && elements_emit value
      && elements_emit_elements next
  end.


(** The nodes reached from [p] through [hh.next], and through [next]. *)
Fixpoint hh_list (p : ucl_ptr) : list ucl_object_t :=
  match p with
  | NULL => []
  | Ptr (UclObject _ _ _ hh_next as o) => o :: hh_list hh_next
  end.

Fixpoint next_list (p : ucl_ptr) : list ucl_object_t :=
  match p with
  | NULL => []
  | Ptr (UclObject _ _ next _ as o) => o :: next_list next
  end.

(** The members the RCL and YAML renderers write for an object, in the
    order they write them: the table of the first member, then the table
    of each node on the sibling chain of that first member. *)
Definition chained_members (obj : ucl_ptr) : list ucl_object_t :=
  flat_map (fun o => hh_list (Ptr o)) (next_list obj).

Definition concat_text (l : list string) : string := String.concat "" l.

(** How often the text [pat] occurs in [s]. *)
Fixpoint occurrences (pat s : string) : nat :=
  (if prefix pat s then 1 else 0)
  + match s with
    | EmptyString => 0
    | String _ s' => occurrences pat s'
    end.

(** ** Further functions used to state properties *)

(** How many characters of [s] the escaper replaces. *)
Fixpoint count_special (s : string) : nat :=
  match s with
  | EmptyString => 0
  | String c s' => (if is_special c then 1 else 0) + count_special s'
  end.

(** The character [c] occurs in [s]. *)
Fixpoint has_char (c : ascii) (s : string) : bool :=
  match s with
  | EmptyString => false
  | String x s' => Ascii.eqb x c || has_char c s'
  end.

(** The text [s] without the spaces and newlines that are read outside
    of a string literal. *)
Fixpoint strip_blanks (st : lex_state) (s : string) : string :=
  match s with
  | EmptyString => ""
  | String c s' =>
      let rest := strip_blanks (lex_step st c) s' in
      match st with
      | Outside =>
          if Ascii.eqb c SP || Ascii.eqb c LF then rest else String c rest
      | _ => String c rest
      end
  end.

Definition opening (c : ascii) : bool := Ascii.eqb c "[" || Ascii.eqb c "{".
Definition closing (c : ascii) : bool := Ascii.eqb c "]" || Ascii.eqb c "}".
Definition closes (o c : ascii) : bool :=
  (Ascii.eqb o "[" && Ascii.eqb c "]") || (Ascii.eqb o "{" && Ascii.eqb c "}").

(** Reading [s] with the brackets that are open in [stack]: outside of
    string literals an opening bracket is pushed and a closing bracket
    must close the last one that was opened.  The result is the state
    and the open brackets at the end, or nothing when a closing bracket
    does not match. *)
Fixpoint bracket_run (st : lex_state) (stack : list ascii) (s : string)
  : option (lex_state * list ascii) :=
  match s with
  | EmptyString => Some (st, stack)
  | String c s' =>
      match st with
      | Outside =>
          if opening c then bracket_run Outside (c :: stack) s'
          else if closing c then
            match stack with
            | o :: stack' =>
                if closes o c then bracket_run Outside stack' s' else None
            | [] => None
            end
          else bracket_run (lex_step Outside c) stack s'
      | _ => bracket_run (lex_step st c) stack s'
      end
  end.

(** The text of a numeral that is neither a bracket nor a quotation
    mark nor a blank. *)
Fixpoint plain_text (s : string) : bool :=
  match s with
  | EmptyString => true
  | String c s' =>
      negb (Ascii.eqb c SP || Ascii.eqb c LF || Ascii.eqb c DQUOTE
            || opening c || closing c)
      && plain_text s'
  end.

(** The members of a table with their sibling links cut. *)
Fixpoint strip_siblings (p : ucl_ptr) : ucl_ptr :=
  match p with
  | NULL => NULL
  | Ptr (UclObject key value _ hh_next) =>
      Ptr (UclObject key value NULL (strip_siblings hh_next))
  end.

(** The items of a JSON object or array with their separators: a comma
    between two items, and in the pretty mode a newline after each. *)
Definition json_items_text (compact : bool) (items : list string) : string :=
  String.concat (if compact then "," else "," ++ nl) items
  ++ match items with
     | [] => ""
     | _ :: _ => if compact then "" else nl
     end.

(** ** Sample trees *)

Module Samples.

Definition node (key : string) (value : ucl_value) (next hh_next : ucl_ptr)
  : ucl_ptr := Ptr (UclObject key value next hh_next).

Definition root (value : ucl_value) : ucl_object_t :=
  UclObject "" value NULL NULL.

(** [Object{a: Integer 1, b: Array[String x, Boolean true]}] *)
Definition ab_tree : ucl_object_t :=
  root (UCL_OBJECT
    (node "a" (UCL_INT 1) NULL
      (node "b"
         (UCL_ARRAY
            (node "" (UCL_STRING "x")
               (node "" (UCL_BOOLEAN true) NULL NULL) NULL))
         NULL NULL))).

(** [Object{}] *)
Definition empty_object : ucl_object_t := root (UCL_OBJECT NULL).

(** An object with the values 1 and 2 inserted under the key [k]. *)
Definition twice_k : ucl_object_t :=
  root (UCL_OBJECT
    (node "k" (UCL_INT 1) (node "k" (UCL_INT 2) NULL NULL) NULL)).

(** The same after a first member [a]. *)
Definition a_then_twice_k : ucl_object_t :=
  root (UCL_OBJECT
    (node "a" (UCL_INT 0) NULL
      (node "k" (UCL_INT 1) (node "k" (UCL_INT 2) NULL NULL) NULL))).

(** [Array[UserData, Integer 1]] and [Array[Integer 1]] *)
Definition userdata_then_one : ucl_object_t :=
  root (UCL_ARRAY (node "" UCL_USERDATA (node "" (UCL_INT 1) NULL NULL) NULL)).

Definition only_one : ucl_object_t :=
  root (UCL_ARRAY (node "" (UCL_INT 1) NULL NULL)).

(** A key with a space, a quotation mark and a tabulation. *)
Definition odd_key : string := "a " ++ dq ++ String HT "b".

Definition odd_key_object : ucl_ptr :=
  node odd_key (UCL_INT 7) NULL (node "c" (UCL_OBJECT NULL) NULL NULL).

(** A string with the seven escaped characters, a control character
    that is not escaped and a byte above 127. *)
Definition special_string : string :=
  "a" ++ String LF (String CR (String BS (String HT (String FF
    (String BACKSLASH (String DQUOTE (String "001" (String "233" "z")))))))).

(** Selector values for the three formats the dispatcher tests for. *)
Definition EMIT_JSON : Z := 0.
Definition EMIT_JSON_COMPACT : Z := 1.
Definition EMIT_YAML : Z := 3.

(** A fixed text in place of the C library's rendering of a double. *)
Definition printf_const (d : double) : string := "0.500000".
Definition printf4_const (d : double) : string := "0.5000".

(** The member [k] of [twice_k], with its sibling. *)
Definition k_member : ucl_object_t :=
  UclObject "k" (UCL_INT 1) (node "k" (UCL_INT 2) NULL NULL) NULL.

End Samples.

Section Emitter.

(** [printf] with the conversions [%lf] and [%.4lf] is left abstract:
    the emitter only appends whatever text the C library produces. *)
Variable printf_lf : double -> string.
Variable printf_4lf : double -> string.

(** ** The JSON renderer

    [ucl_elt_write_json] reads only the type tag and the payload of
    its node, which is what it receives here.  Each loop of the C code
    is a local [fix] on the pointer it advances; the loop of
    [ucl_obj_write_json] starts at the node [obj], which is not null,
    so it is a [fix] on the node that stops when [next] is null. *)
Fixpoint ucl_elt_write_json (value : ucl_value) (buf : UT_string) (tabs : N)
    (start_tabs compact : bool) {struct value} : UT_string :=
  match value with
  | UCL_INT iv =>
      let buf := if start_tabs then ucl_add_tabs buf tabs compact else buf in
      utstring_printf buf (printf_ld (long_int iv))
  | UCL_FLOAT dv =>
      let buf := if start_tabs then ucl_add_tabs buf tabs compact else buf in
      utstring_printf buf (printf_lf dv)
  | UCL_TIME dv =>
      let buf := if start_tabs then ucl_add_tabs buf tabs compact else buf in
      utstring_printf buf (printf_lf dv)
  | UCL_BOOLEAN bv =>
      let buf := if start_tabs then ucl_add_tabs buf tabs compact else buf in
      utstring_printf buf (printf_s (if bv then "true" else "false"))
  | UCL_STRING sv =>
      let buf := if start_tabs then ucl_add_tabs buf tabs compact else buf in
      ucl_elt_string_write_json sv buf
  | UCL_OBJECT ov => ucl_elt_obj_write_json ov buf tabs start_tabs compact
  | UCL_ARRAY ov => ucl_elt_array_write_json ov buf tabs start_tabs compact
  | UCL_USERDATA => buf
  end

with ucl_elt_obj_write_json (obj : ucl_ptr) (buf : UT_string) (tabs : N)
    (start_tabs compact : bool) {struct obj} : UT_string :=
  let buf := if start_tabs then ucl_add_tabs buf tabs compact else buf in
  let buf := if compact then utstring_append_c buf "{"
             else utstring_append_len buf ("{" ++ nl) 2 in
  let buf :=
    (fix HASH_ITER (cur : ucl_ptr) (buf : UT_string) {struct cur} : UT_string :=
       match cur with
       | NULL => buf
       | Ptr (UclObject key _ _ hh_next as member) =>
           let buf := ucl_add_tabs buf (uint_succ tabs) compact in
           let buf := ucl_elt_string_write_json key buf in
           let buf := if compact then utstring_append_c buf ":"
                      else utstring_append_len buf ": " 2 in
           let buf := ucl_obj_write_json member buf (uint_succ tabs) false compact in
           let buf :=
             if negb (is_null hh_next) then
               if compact then utstring_append_c buf ","
               else utstring_append_len buf ("," ++ nl) 2
             else if negb compact then utstring_append_c buf LF
             else buf in
           HASH_ITER hh_next buf
       end) obj buf in
  let buf := ucl_add_tabs buf tabs compact in
  utstring_append_c buf "}"

with ucl_elt_array_write_json (obj : ucl_ptr) (buf : UT_string) (tabs : N)
    (start_tabs compact : bool) {struct obj} : UT_string :=
  let buf := if start_tabs then ucl_add_tabs buf tabs compact else buf in
  let buf := if compact then utstring_append_c buf "["
             else utstring_append_len buf ("[" ++ nl) 2 in
  let buf :=
    (fix while_cur (cur : ucl_ptr) (buf : UT_string) {struct cur} : UT_string :=
       match cur with
       | NULL => buf
       | Ptr (UclObject _ value next _) =>
           let buf := ucl_elt_write_json value buf (uint_succ tabs) true compact in
           let buf :=
             if negb (is_null next) then
               if compact then utstring_append_c buf ","
               else utstring_append_len buf ("," ++ nl) 2
             else if negb compact then utstring_append_c buf LF
             else buf in
           while_cur next buf
       end) obj buf in
  let buf := ucl_add_tabs buf tabs compact in
  utstring_append_c buf "]"

with ucl_obj_write_json (obj : ucl_object_t) (buf : UT_string) (tabs : N)
    (start_tabs compact : bool) {struct obj} : UT_string :=
  match obj with
  | UclObject _ value next _ =>
      let is_array := negb (is_null next) in
      if is_array then
        let buf := if start_tabs then ucl_add_tabs buf tabs compact else buf in
        let buf := if compact then utstring_append_c buf "["
                   else utstring_append_len buf ("[" ++ nl) 2 in
        let buf :=
          (fix while_cur (cur : ucl_object_t) (buf : UT_string) {struct cur}
             : UT_string :=
             match cur with
             | UclObject _ value next _ =>
                 let buf :=
                   ucl_elt_write_json value buf (uint_succ tabs) true compact in
                 let buf :=
                   if negb (is_null next) then utstring_append_c buf "," else buf in
                 let buf :=
                   if negb compact then utstring_append_c buf LF else buf in
                 match next with
                 | NULL => buf
                 | Ptr cur => while_cur cur buf
                 end
             end) obj buf in
        let buf := ucl_add_tabs buf tabs compact in
        utstring_append_c buf "]"
      else ucl_elt_write_json value buf tabs start_tabs compact
  end.

Definition ucl_object_emit_json (obj : ucl_object_t) (compact : bool) : string :=
  let buf := utstring_new in
  let buf := ucl_obj_write_json obj buf 0 false compact in
  utstring_body buf.

(** The loops of the JSON renderer under names of their own, for the
    statements below. *)
Definition HASH_ITER_json (tabs : N) (compact : bool)
  : ucl_ptr -> UT_string -> UT_string :=
  fix HASH_ITER (cur : ucl_ptr) (buf : UT_string) {struct cur} : UT_string :=
    match cur with
    | NULL => buf
    | Ptr (UclObject key _ _ hh_next as member) =>
        let buf := ucl_add_tabs buf (uint_succ tabs) compact in
        let buf := ucl_elt_string_write_json key buf in
        let buf := if compact then utstring_append_c buf ":"
                   else utstring_append_len buf ": " 2 in
        let buf := ucl_obj_write_json member buf (uint_succ tabs) false compact in
        let buf :=
          if negb (is_null hh_next) then
            if compact then utstring_append_c buf ","
            else utstring_append_len buf ("," ++ nl) 2
          else if negb compact then utstring_append_c buf LF
          else buf in
        HASH_ITER hh_next buf
    end.

Definition while_cur_array_json (tabs : N) (compact : bool)
  : ucl_ptr -> UT_string -> UT_string :=
  fix while_cur_array (cur : ucl_ptr) (buf : UT_string) {struct cur} : UT_string :=
    match cur with
    | NULL => buf
    | Ptr (UclObject _ value next _) =>
        let buf := ucl_elt_write_json value buf (uint_succ tabs) true compact in
        let buf :=
          if negb (is_null next) then
            if compact then utstring_append_c buf ","
            else utstring_append_len buf ("," ++ nl) 2
          else if negb compact then utstring_append_c buf LF
          else buf in
        while_cur_array next buf
    end.

Definition while_cur_chain_json (tabs : N) (compact : bool)
  : ucl_object_t -> UT_string -> UT_string :=
  fix while_cur_chain (cur : ucl_object_t) (buf : UT_string) {struct cur} : UT_string :=
    match cur with
    | UclObject _ value next _ =>
        let buf := ucl_elt_write_json value buf (uint_succ tabs) true compact in
        let buf := if negb (is_null next) then utstring_append_c buf "," else buf in
        let buf := if negb compact then utstring_append_c buf LF else buf in
        match next with
        | NULL => buf
        | Ptr cur => while_cur_chain cur buf
        end
    end.

(** ** The RCL renderer

    The member loop of an object runs once for the table that starts
    at [obj] and then again for every node on the sibling chain of
    that first member ([obj = obj->next]). *)
Fixpoint ucl_elt_write_rcl (value : ucl_value) (buf : UT_string) (tabs : N)
    (start_tabs is_top : bool) {struct value} : UT_string :=
  match value with
  | UCL_INT iv =>
      let buf := if start_tabs then ucl_add_tabs buf tabs false else buf in
      utstring_printf buf (printf_ld (long_int iv))
  | UCL_FLOAT dv =>
      let buf := if start_tabs then ucl_add_tabs buf tabs false else buf in
      utstring_printf buf (printf_4lf dv)
  | UCL_TIME dv =>
      let buf := if start_tabs then ucl_add_tabs buf tabs false else buf in
      utstring_printf buf (printf_4lf dv)
  | UCL_BOOLEAN bv =>
      let buf := if start_tabs then ucl_add_tabs buf tabs false else buf in
      utstring_printf buf (printf_s (if bv then "true" else "false"))
  | UCL_STRING sv =>
      let buf := if start_tabs then ucl_add_tabs buf tabs false else buf in
      ucl_elt_string_write_json sv buf
  | UCL_OBJECT ov => ucl_elt_obj_write_rcl ov buf tabs start_tabs is_top
  | UCL_ARRAY ov => ucl_elt_array_write_rcl ov buf tabs start_tabs is_top
  | UCL_USERDATA => buf
  end

with ucl_elt_obj_write_rcl (obj : ucl_ptr) (buf : UT_string) (tabs : N)
    (start_tabs is_top : bool) {struct obj} : UT_string :=
  let buf := if start_tabs then ucl_add_tabs buf tabs is_top else buf in
  let buf := if negb is_top then utstring_append_len buf ("{" ++ nl) 2
             else buf in
  let buf :=
    (fix while_obj (obj : ucl_ptr) (buf : UT_string) {struct obj} : UT_string :=
       match obj with
       | NULL => buf
       | Ptr (UclObject _ _ next _) =>
           let buf :=
             (fix HASH_ITER (cur : ucl_ptr) (buf : UT_string) {struct cur}
                : UT_string :=
                match cur with
                | NULL => buf
                | Ptr (UclObject key value _ hh_next) =>
                    let buf := ucl_add_tabs buf (uint_succ tabs) is_top in
                    let buf := utstring_append_len buf key (strlen key) in
                    let buf :=
                      if negb (is_container value)
                      then utstring_append_len buf " = " 3
                      else utstring_append_c buf " " in
                    let buf :=
                      ucl_elt_write_rcl value buf
                        (if is_top then tabs else uint_succ tabs) false false in
                    let buf :=
                      if negb (is_container value)
                      then utstring_append_len buf (";" ++ nl) 2
                      else utstring_append_c buf LF in
                    HASH_ITER hh_next buf
                end) obj buf in
           while_obj next buf
       end) obj buf in
  let buf := ucl_add_tabs buf tabs is_top in
  if negb is_top then utstring_append_c buf "}" else buf

with ucl_elt_array_write_rcl (obj : ucl_ptr) (buf : UT_string) (tabs : N)
    (start_tabs is_top : bool) {struct obj} : UT_string :=
  let buf := if start_tabs then ucl_add_tabs buf tabs false else buf in
  let buf := utstring_append_len buf ("[" ++ nl) 2 in
  let buf :=
    (fix while_cur (cur : ucl_ptr) (buf : UT_string) {struct cur} : UT_string :=
       match cur with
       | NULL => buf
       | Ptr (UclObject _ value next _) =>
           let buf := ucl_elt_write_rcl value buf (uint_succ tabs) true false in
           let buf := utstring_append_len buf ("," ++ nl) 2 in
           while_cur next buf
       end) obj buf in
  let buf := ucl_add_tabs buf tabs false in
  utstring_append_c buf "]".

Definition ucl_object_emit_rcl (obj : ucl_object_t) : string :=
  let buf := utstring_new in
  let buf := ucl_elt_write_rcl (obj_value obj) buf 0 false true in
  utstring_body buf.

(** The loops of the RCL renderer. *)
Definition HASH_ITER_rcl (tabs : N) (is_top : bool)
  : ucl_ptr -> UT_string -> UT_string :=
  fix HASH_ITER (cur : ucl_ptr) (buf : UT_string) {struct cur} : UT_string :=
    match cur with
    | NULL => buf
    | Ptr (UclObject key value _ hh_next) =>
        let buf := ucl_add_tabs buf (uint_succ tabs) is_top in
        let buf := utstring_append_len buf key (strlen key) in
        let buf :=
          if negb (is_container value)
          then utstring_append_len buf " = " 3
          else utstring_append_c buf " " in
        let buf :=
          ucl_elt_write_rcl value buf
            (if is_top then tabs else uint_succ tabs) false false in
        let buf :=
          if negb (is_container value)
          then utstring_append_len buf (";" ++ nl) 2
          else utstring_append_c buf LF in
        HASH_ITER hh_next buf
    end.

Definition while_obj_rcl (tabs : N) (is_top : bool)
  : ucl_ptr -> UT_string -> UT_string :=
  fix while_obj (obj : ucl_ptr) (buf : UT_string) {struct obj} : UT_string :=
    match obj with
    | NULL => buf
    | Ptr (UclObject _ _ next _) =>
        let buf := HASH_ITER_rcl tabs is_top obj buf in
        while_obj next buf
    end.

Definition while_cur_array_rcl (tabs : N) : ucl_ptr -> UT_string -> UT_string :=
  fix while_cur (cur : ucl_ptr) (buf : UT_string) {struct cur} : UT_string :=
    match cur with
    | NULL => buf
    | Ptr (UclObject _ value next _) =>
        let buf := ucl_elt_write_rcl value buf (uint_succ tabs) true false in
        let buf := utstring_append_len buf ("," ++ nl) 2 in
        while_cur next buf
    end.

(** ** The YAML renderer *)
Fixpoint ucl_elt_write_yaml (value : ucl_value) (buf : UT_string) (tabs : N)
    (start_tabs is_top : bool) {struct value} : UT_string :=
  match value with
  | UCL_INT iv =>
      let buf := if start_tabs then ucl_add_tabs buf tabs false else buf in
      utstring_printf buf (printf_ld (long_int iv))
  | UCL_FLOAT dv =>
      let buf := if start_tabs then ucl_add_tabs buf tabs false else buf in
      utstring_printf buf (printf_4lf dv)
  | UCL_TIME dv =>
      let buf := if start_tabs then ucl_add_tabs buf tabs false else buf in
      utstring_printf buf (printf_4lf dv)
  | UCL_BOOLEAN bv =>
      let buf := if start_tabs then ucl_add_tabs buf tabs false else buf in
      utstring_printf buf (printf_s (if bv then "true" else "false"))
  | UCL_STRING sv =>
      let buf := if start_tabs then ucl_add_tabs buf tabs false else buf in
      ucl_elt_string_write_json sv buf
  | UCL_OBJECT ov => ucl_elt_obj_write_yaml ov buf tabs start_tabs is_top
  | UCL_ARRAY ov => ucl_elt_array_write_yaml ov buf tabs start_tabs is_top
  | UCL_USERDATA => buf
  end

with ucl_elt_obj_write_yaml (obj : ucl_ptr) (buf : UT_string) (tabs : N)
    (start_tabs is_top : bool) {struct obj} : UT_string :=
  let buf := if start_tabs then ucl_add_tabs buf tabs is_top else buf in
  let buf := if negb is_top then utstring_append_len buf (": {" ++ nl) 4
             else buf in
  let buf :=
    (fix while_obj (obj : ucl_ptr) (buf : UT_string) {struct obj} : UT_string :=
       match obj with
       | NULL => buf
       | Ptr (UclObject _ _ next _) =>
           let buf :=
             (fix HASH_ITER (cur : ucl_ptr) (buf : UT_string) {struct cur}
                : UT_string :=
                match cur with
                | NULL => buf
                | Ptr (UclObject key value _ hh_next) =>
                    let buf := ucl_add_tabs buf (uint_succ tabs) is_top in
                    let buf := utstring_append_len buf key (strlen key) in
                    let buf :=
                      if negb (is_container value)
                      then utstring_append_len buf " : " 3
                      else utstring_append_c buf " " in
                    let buf :=
                      ucl_elt_write_yaml value buf
                        (if is_top then tabs else uint_succ tabs) false false in
                    let buf :=
                      if negb (is_container value)
                      then utstring_append_len buf ("," ++ nl) 2
                      else utstring_append_c buf LF in
                    HASH_ITER hh_next buf
                end) obj buf in
           while_obj next buf
       end) obj buf in
  let buf := ucl_add_tabs buf tabs is_top in
  if negb is_top then utstring_append_c buf "}" else buf

with ucl_elt_array_write_yaml (obj : ucl_ptr) (buf : UT_string) (tabs : N)
    (start_tabs is_top : bool) {struct obj} : UT_string :=
  let buf := if start_tabs then ucl_add_tabs buf tabs false else buf in
  let buf := utstring_append_len buf (": [" ++ nl) 4 in
  let buf :=
    (fix while_cur (cur : ucl_ptr) (buf : UT_string) {struct cur} : UT_string :=
       match cur with
       | NULL => buf
       | Ptr (UclObject _ value next _) =>
           let buf := ucl_elt_write_yaml value buf (uint_succ tabs) true false in
           let buf := utstring_append_len buf ("," ++ nl) 2 in
           while_cur next buf
       end) obj buf in
  let buf := ucl_add_tabs buf tabs false in
  utstring_append_c buf "]".

Definition ucl_object_emit_yaml (obj : ucl_object_t) : string :=
  let buf := utstring_new in
  let buf := ucl_elt_write_yaml (obj_value obj) buf 0 false true in
  utstring_body buf.

(** The loops of the YAML renderer. *)
Definition HASH_ITER_yaml (tabs : N) (is_top : bool)
  : ucl_ptr -> UT_string -> UT_string :=
  fix HASH_ITER (cur : ucl_ptr) (buf : UT_string) {struct cur} : UT_string :=
    match cur with
    | NULL => buf
    | Ptr (UclObject key value _ hh_next) =>
        let buf := ucl_add_tabs buf (uint_succ tabs) is_top in
        let buf := utstring_append_len buf key (strlen key) in
        let buf :=
          if negb (is_container value)
          then utstring_append_len buf " : " 3
          else utstring_append_c buf " " in
        let buf :=
          ucl_elt_write_yaml value buf
            (if is_top then tabs else uint_succ tabs) false false in
        let buf :=
          if negb (is_container value)
          then utstring_append_len buf ("," ++ nl) 2
          else utstring_append_c buf LF in
        HASH_ITER hh_next buf
    end.

Definition while_obj_yaml (tabs : N) (is_top : bool)
  : ucl_ptr -> UT_string -> UT_string :=
  fix while_obj (obj : ucl_ptr) (buf : UT_string) {struct obj} : UT_string :=
    match obj with
    | NULL => buf
    | Ptr (UclObject _ _ next _) =>
        let buf := HASH_ITER_yaml tabs is_top obj buf in
        while_obj next buf
    end.

Definition while_cur_array_yaml (tabs : N) : ucl_ptr -> UT_string -> UT_string :=
  fix while_cur (cur : ucl_ptr) (buf : UT_string) {struct cur} : UT_string :=
    match cur with
    | NULL => buf
    | Ptr (UclObject _ value next _) =>
        let buf := ucl_elt_write_yaml value buf (uint_succ tabs) true false in
        let buf := utstring_append_len buf ("," ++ nl) 2 in
        while_cur next buf
    end.

(** ** The dispatcher *)

(** Modelled from the spec: the selectors JSON, JSON_COMPACT and YAML
    of the enumeration [ucl_emitter], which is declared in ucl.h and
    not in the emitter's source file.  A C enumeration is an integer;
    the three values are parameters. *)
Variable UCL_EMIT_JSON : Z.
Variable UCL_EMIT_JSON_COMPACT : Z.
Variable UCL_EMIT_YAML : Z.

(** A C function body either returns a value or runs on to the next
    statement. *)
Inductive flow (A : Type) : Type :=
| Return (a : A)
| Continue.
Arguments Return {A} a.
Arguments Continue {A}.

(** The [if ... else if ... else] statement of [ucl_object_emit]; the
    result is a pointer to the text, [None] being the null pointer. *)
Definition ucl_object_emit_select (obj : ucl_object_t) (emit_type : Z)
  : flow (option string) :=
  if Z.eqb emit_type UCL_EMIT_JSON then
    Return (Some (ucl_object_emit_json obj false))
  else if Z.eqb emit_type UCL_EMIT_JSON_COMPACT then
    Return (Some (ucl_object_emit_json obj true))
  else if Z.eqb emit_type UCL_EMIT_YAML then
    Return (Some (ucl_object_emit_yaml obj))
  else
    Return (Some (ucl_object_emit_rcl obj)).

Definition ucl_object_emit (obj : ucl_object_t) (emit_type : Z) : option string :=
  match ucl_object_emit_select obj emit_type with
  | Return res => res
  | Continue => None
  end.

(** ** The text each function appends

    The text a writer appends to the buffer is what it leaves in an
    empty one. *)
Definition tabs_text (tabs : N) (compact : bool) : string :=
  ucl_add_tabs "" tabs compact.
Definition string_text (str : string) : string :=
  ucl_elt_string_write_json str "".

Definition elt_text_json (value : ucl_value) (tabs : N) (start_tabs compact : bool)
  : string := ucl_elt_write_json value "" tabs start_tabs compact.
Definition obj_text_json (obj : ucl_object_t) (tabs : N) (start_tabs compact : bool)
  : string := ucl_obj_write_json obj "" tabs start_tabs compact.
Definition members_text_json (tabs : N) (compact : bool) (cur : ucl_ptr) : string :=
  HASH_ITER_json tabs compact cur "".
Definition elements_text_json (tabs : N) (compact : bool) (cur : ucl_ptr) : string :=
  while_cur_array_json tabs compact cur "".
Definition chain_text_json (tabs : N) (compact : bool) (cur : ucl_object_t)
  : string := while_cur_chain_json tabs compact cur "".

Definition elt_text_rcl (value : ucl_value) (tabs : N) (start_tabs is_top : bool)
  : string := ucl_elt_write_rcl value "" tabs start_tabs is_top.
Definition members_text_rcl (tabs : N) (is_top : bool) (cur : ucl_ptr) : string :=
  HASH_ITER_rcl tabs is_top cur "".
Definition tables_text_rcl (tabs : N) (is_top : bool) (obj : ucl_ptr) : string :=
  while_obj_rcl tabs is_top obj "".
Definition elements_text_rcl (tabs : N) (cur : ucl_ptr) : string :=
  while_cur_array_rcl tabs cur "".

Definition elt_text_yaml (value : ucl_value) (tabs : N) (start_tabs is_top : bool)
  : string := ucl_elt_write_yaml value "" tabs start_tabs is_top.
Definition members_text_yaml (tabs : N) (is_top : bool) (cur : ucl_ptr) : string :=
  HASH_ITER_yaml tabs is_top cur "".
Definition tables_text_yaml (tabs : N) (is_top : bool) (obj : ucl_ptr) : string :=
  while_obj_yaml tabs is_top obj "".
Definition elements_text_yaml (tabs : N) (cur : ucl_ptr) : string :=
  while_cur_array_yaml tabs cur "".

(** What the JSON renderer writes after a member or an element: a
    comma when another one follows, a newline in the pretty mode. *)
Definition json_sep (compact : bool) (following : ucl_ptr) : string :=
  if is_null following
  then if compact then "" else nl
  else if compact then "," else "," ++ nl.

(** The opening of a JSON object or array. *)
Definition json_open (bracket : string) (compact : bool) : string :=
  if compact then bracket else bracket ++ nl.

(** The indentation written when [start_tabs] is set. *)
Definition start_text (start_tabs : bool) (tabs : N) (compact : bool) : string :=
  if start_tabs then tabs_text tabs compact else "".

(** What the three renderers write for one member of an object. *)
Definition member_text_json (tabs : N) (compact : bool) (member : ucl_object_t)
  : string :=
  tabs_text (uint_succ tabs) compact
  ++ string_text (obj_key member)
  ++ (if compact then ":" else ": ")
  ++ obj_text_json member (uint_succ tabs) false compact
  ++ json_sep compact (obj_hh_next member).

Definition statement_rcl (tabs : N) (is_top : bool) (key : string)
    (value : ucl_value) : string :=
  tabs_text (uint_succ tabs) is_top
  ++ key
  ++ (if is_container value then " " else " = ")
  ++ elt_text_rcl value (if is_top then tabs else uint_succ tabs) false false
  ++ (if is_container value then nl else ";" ++ nl).

Definition member_text_rcl (tabs : N) (is_top : bool) (member : ucl_object_t)
  : string :=
  statement_rcl tabs is_top (c_str (obj_key member)) (obj_value member).

Definition statement_yaml (tabs : N) (is_top : bool) (key : string)
    (value : ucl_value) : string :=
  tabs_text (uint_succ tabs) is_top
  ++ key
  ++ (if is_container value then " " else " : ")
  ++ elt_text_yaml value (if is_top then tabs else uint_succ tabs) false false
  ++ (if is_container value then nl else "," ++ nl).

Definition member_text_yaml (tabs : N) (is_top : bool) (member : ucl_object_t)
  : string :=
  statement_yaml tabs is_top (c_str (obj_key member)) (obj_value member).

(** The statements proved together, by induction on the tree, about
    the loops that start at one node. *)
Definition json_frames (p : ucl_ptr) : Prop :=
  (forall buf tabs compact,
      HASH_ITER_json tabs compact p buf = buf ++ members_text_json tabs compact p)
  /\ (forall buf tabs compact,
        while_cur_array_json tabs compact p buf
        = buf ++ elements_text_json tabs compact p)
  /\ match p with
     | NULL => True
     | Ptr o =>
         (forall buf tabs start_tabs compact,
             ucl_obj_write_json o buf tabs start_tabs compact
             = buf ++ obj_text_json o tabs start_tabs compact)
         /\ (forall buf tabs compact,
               while_cur_chain_json tabs compact o buf
               = buf ++ chain_text_json tabs compact o)
     end.

Definition rcl_frames (p : ucl_ptr) : Prop :=
  (forall buf tabs is_top,
      HASH_ITER_rcl tabs is_top p buf = buf ++ members_text_rcl tabs is_top p)
  /\ (forall buf tabs is_top,
        while_obj_rcl tabs is_top p buf = buf ++ tables_text_rcl tabs is_top p)
  /\ (forall buf tabs,
        while_cur_array_rcl tabs p buf = buf ++ elements_text_rcl tabs p).

Definition yaml_frames (p : ucl_ptr) : Prop :=
  (forall buf tabs is_top,
      HASH_ITER_yaml tabs is_top p buf = buf ++ members_text_yaml tabs is_top p)
  /\ (forall buf tabs is_top,
        while_obj_yaml tabs is_top p buf = buf ++ tables_text_yaml tabs is_top p)
  /\ (forall buf tabs,
        while_cur_array_yaml tabs p buf = buf ++ elements_text_yaml tabs p).

(** A text that is read from outside of a literal to outside of a
    literal without meeting a blank on the way. *)
Definition tidy (s : string) : Prop :=
  lex_run Outside s = Outside /\ no_blank_outside Outside s = true.

Definition tidy_from (p : ucl_ptr) : Prop :=
  (forall tabs, tidy (members_text_json tabs true p))
  /\ (forall tabs, tidy (elements_text_json tabs true p)).

(** Written one level deeper, a value has the same text with four
    more spaces at the start of each line after the first, and of the
    first line too when the value is written with its indentation. *)
Definition deeper_value (v : ucl_value) (tabs : N) : Prop :=
  elements_emit v = true ->
  (tabs + 1 + json_nesting v < UINT_MODULUS)%N ->
  elt_text_json v (N.succ tabs) false false
  = indent_lines (elt_text_json v tabs false false)
  /\ (is_userdata v = false ->
      elt_text_json v (N.succ tabs) true false
      = "    " ++ indent_lines (elt_text_json v tabs true false)).

Definition deeper_from (p : ucl_ptr) : Prop :=
  (forall tabs,
      elements_emit_members p = true ->
      (tabs + 2 + json_nesting_members p < UINT_MODULUS)%N ->
      "    " ++ indent_lines (members_text_json tabs false p)
      = members_text_json (N.succ tabs) false p ++ "    ")
  /\ (forall tabs,
        elements_emit_elements p = true ->
        (tabs + 2 + json_nesting_elements p < UINT_MODULUS)%N ->
        "    " ++ indent_lines (elements_text_json tabs false p)
        = elements_text_json (N.succ tabs) false p ++ "    ").

(** Two texts of one tree are related by [R] at every list of members
    and of elements that starts at [p]. *)
Definition related_from (R : string -> string -> Prop) (c1 c2 : bool)
    (p : ucl_ptr) : Prop :=
  (forall t1 t2,
      R (members_text_json t1 c1 p) (members_text_json t2 c2 p))
  /\ (forall t1 t2,
        R (elements_text_json t1 c1 p) (elements_text_json t2 c2 p)).

(** ** Strings and the buffer *)

Lemma append_nil_r (s : string) : s ++ "" = s.
Proof. induction s as [|c s IH]; simpl; [reflexivity | now rewrite IH]. Qed.

Lemma append_assoc (a b c : string) : (a ++ b) ++ c = a ++ (b ++ c).
Proof. induction a as [|x a IH]; simpl; [reflexivity | now rewrite IH]. Qed.

Lemma substring_all (s : string) : substring 0 (String.length s) s = s.
Proof. induction s as [|c s IH]; simpl; [reflexivity | now rewrite IH]. Qed.

Lemma strlen_nul_free (s : string) : nul_free s = true -> strlen s = String.length s.
Proof.
  induction s as [|c s IH]; simpl; [reflexivity |].
  destruct (Ascii.eqb c NUL); simpl; [discriminate |].
  intros H. now rewrite IH.
Qed.

Lemma c_str_nul_free (s : string) : nul_free s = true -> c_str s = s.
Proof.
  intros H. unfold c_str. rewrite (strlen_nul_free s H). apply substring_all.
Qed.

Lemma c_str_cons (c : ascii) (s : string) :
  c_str (String c s) = if Ascii.eqb c NUL then "" else String c (c_str s).
Proof. unfold c_str. simpl. now destruct (Ascii.eqb c NUL). Qed.

Lemma spaces_succ (n : N) : spaces (N.succ n) = "    " ++ spaces n.
Proof. unfold spaces. now rewrite N.iter_succ. Qed.

Lemma spaces_comm (n : N) : spaces n ++ "    " = "    " ++ spaces n.
Proof.
  induction n as [|n IH] using N.peano_ind; [reflexivity |].
  rewrite spaces_succ, append_assoc, IH. reflexivity.
Qed.

Lemma N_iter_append (n : N) (buf : string) :
  N.iter n (fun buf => utstring_append_len buf "    " 4) buf = buf ++ spaces n.
Proof.
  induction n as [|n IH] using N.peano_ind.
  - simpl. now rewrite append_nil_r.
  - rewrite N.iter_succ, IH, spaces_succ. unfold utstring_append_len. simpl.
    rewrite append_assoc. f_equal. apply (spaces_comm n).
Qed.

Lemma tabs_text_eq (tabs : N) (compact : bool) :
  tabs_text tabs compact = if compact then "" else spaces tabs.
Proof.
  unfold tabs_text, ucl_add_tabs. destruct compact; [reflexivity |].
  now rewrite N_iter_append.
Qed.

Lemma ucl_add_tabs_app (buf : UT_string) (tabs : N) (compact : bool) :
  ucl_add_tabs buf tabs compact = buf ++ tabs_text tabs compact.
Proof.
  rewrite tabs_text_eq. unfold ucl_add_tabs. destruct compact.
  - now rewrite append_nil_r.
  - apply N_iter_append.
Qed.

(** ** The string escaper *)

Lemma escape_loop_app (p : string) (buf : UT_string) :
  ucl_elt_string_write_json_loop p buf = buf ++ json_escape (c_str p).
Proof.
  revert buf. induction p as [|c p IH]; intros buf.
  - simpl. now rewrite append_nil_r.
  - rewrite c_str_cons.
    destruct c as [[] [] [] [] [] [] [] []]; simpl;
      try (now rewrite append_nil_r);
      rewrite IH; unfold utstring_append_len, utstring_append_c; simpl;
      rewrite append_assoc; reflexivity.
Qed.

Lemma ucl_elt_string_write_json_app (str : string) (buf : UT_string) :
  ucl_elt_string_write_json str buf = buf ++ dq ++ json_escape (c_str str) ++ dq.
Proof.
  unfold ucl_elt_string_write_json. rewrite escape_loop_app.
  unfold utstring_append_c. now rewrite !append_assoc.
Qed.

Lemma string_text_eq (str : string) :
  string_text str = dq ++ json_escape (c_str str) ++ dq.
Proof. unfold string_text. now rewrite ucl_elt_string_write_json_app. Qed.

Lemma ucl_elt_string_write_json_frame (str : string) (buf : UT_string) :
  ucl_elt_string_write_json str buf = buf ++ string_text str.
Proof. now rewrite string_text_eq, ucl_elt_string_write_json_app. Qed.

(** ** The JSON writers append to the buffer *)

Lemma ucl_elt_obj_write_json_eq obj buf tabs start_tabs compact :
  ucl_elt_obj_write_json obj buf tabs start_tabs compact =
  utstring_append_c
    (ucl_add_tabs
       (HASH_ITER_json tabs compact obj
          (let buf := if start_tabs then ucl_add_tabs buf tabs compact else buf in
           if compact then utstring_append_c buf "{"
           else utstring_append_len buf ("{" ++ nl) 2))
       tabs compact) "}".
Proof. destruct obj; reflexivity. Qed.

Lemma ucl_elt_array_write_json_eq obj buf tabs start_tabs compact :
  ucl_elt_array_write_json obj buf tabs start_tabs compact =
  utstring_append_c
    (ucl_add_tabs
       (while_cur_array_json tabs compact obj
          (let buf := if start_tabs then ucl_add_tabs buf tabs compact else buf in
           if compact then utstring_append_c buf "["
           else utstring_append_len buf ("[" ++ nl) 2))
       tabs compact) "]".
Proof. destruct obj; reflexivity. Qed.

Lemma ucl_obj_write_json_eq obj buf tabs start_tabs compact :
  ucl_obj_write_json obj buf tabs start_tabs compact =
  if negb (is_null (obj_next obj)) then
    utstring_append_c
      (ucl_add_tabs
         (while_cur_chain_json tabs compact obj
            (let buf := if start_tabs then ucl_add_tabs buf tabs compact else buf in
             if compact then utstring_append_c buf "["
             else utstring_append_len buf ("[" ++ nl) 2))
         tabs compact) "]"
  else ucl_elt_write_json (obj_value obj) buf tabs start_tabs compact.
Proof. destruct obj as [k v [|n] h]; reflexivity. Qed.

Lemma HASH_ITER_json_eq tabs compact key v next hh buf :
  HASH_ITER_json tabs compact (Ptr (UclObject key v next hh)) buf =
  HASH_ITER_json tabs compact hh
    (let buf := ucl_add_tabs buf (uint_succ tabs) compact in
     let buf := ucl_elt_string_write_json key buf in
     let buf := if compact then utstring_append_c buf ":"
                else utstring_append_len buf ": " 2 in
     let buf := ucl_obj_write_json (UclObject key v next hh) buf
                  (uint_succ tabs) false compact in
     if negb (is_null hh) then
       if compact then utstring_append_c buf ","
       else utstring_append_len buf ("," ++ nl) 2
     else if negb compact then utstring_append_c buf LF
     else buf).
Proof. reflexivity. Qed.

Lemma while_cur_array_json_eq tabs compact key v next hh buf :
  while_cur_array_json tabs compact (Ptr (UclObject key v next hh)) buf =
  while_cur_array_json tabs compact next
    (let buf := ucl_elt_write_json v buf (uint_succ tabs) true compact in
     if negb (is_null next) then
       if compact then utstring_append_c buf ","
       else utstring_append_len buf ("," ++ nl) 2
     else if negb compact then utstring_append_c buf LF
     else buf).
Proof. reflexivity. Qed.

Lemma while_cur_chain_json_eq tabs compact key v next hh buf :
  while_cur_chain_json tabs compact (UclObject key v next hh) buf =
  let buf := ucl_elt_write_json v buf (uint_succ tabs) true compact in
  let buf := if negb (is_null next) then utstring_append_c buf "," else buf in
  let buf := if negb compact then utstring_append_c buf LF else buf in
  match next with
  | NULL => buf
  | Ptr cur => while_cur_chain_json tabs compact cur buf
  end.
Proof. reflexivity. Qed.

Ltac to_append :=
  unfold utstring_printf, utstring_append_c, utstring_append_len;
  rewrite ?ucl_add_tabs_app, ?ucl_elt_string_write_json_frame;
  cbn [substring append nl negb is_null];
  rewrite ?append_nil_r;
  repeat (rewrite append_assoc || (progress (cbn [append]))).

Lemma json_frame_all :
  (forall o, json_frames (Ptr o))
  /\ (forall v buf tabs start_tabs compact,
        ucl_elt_write_json v buf tabs start_tabs compact
        = buf ++ elt_text_json v tabs start_tabs compact)
  /\ (forall p, json_frames p).
Proof.
  apply ucl_tree_ind.
  - intros key v IHv next IHn hh IHh.
    destruct IHn as (_ & IHn_arr & IHn_chain).
    destruct IHh as (IHh & _ & _).
    assert (Hchain : forall buf tabs compact,
               while_cur_chain_json tabs compact (UclObject key v next hh) buf
               = buf ++ chain_text_json tabs compact (UclObject key v next hh)).
    { intros buf tabs compact. unfold chain_text_json.
      rewrite !while_cur_chain_json_eq. cbv zeta.
      destruct next as [|n].
      - rewrite !IHv. destruct compact; to_append; reflexivity.
      - destruct IHn_chain as (_ & IHc).
        rewrite !IHc, !IHv.
        destruct compact; to_append; reflexivity. }
    assert (Hobj : forall buf tabs start_tabs compact,
               ucl_obj_write_json (UclObject key v next hh) buf tabs start_tabs compact
               = buf ++ obj_text_json (UclObject key v next hh) tabs start_tabs compact).
    { intros buf tabs start_tabs compact. unfold obj_text_json.
      rewrite !ucl_obj_write_json_eq. cbn [obj_next obj_value]. cbv zeta.
      destruct next as [|n]; cbn [is_null negb].
      - rewrite !IHv. reflexivity.
      - rewrite !Hchain.
        destruct start_tabs, compact; to_append; reflexivity. }
    repeat split; try assumption.
    + intros buf tabs compact. unfold members_text_json.
      rewrite !HASH_ITER_json_eq. cbv zeta.
      rewrite !IHh, !Hobj.
      destruct hh, compact; to_append; reflexivity.
    + intros buf tabs compact. unfold elements_text_json.
      rewrite !while_cur_array_json_eq. cbv zeta.
      rewrite !IHn_arr, !IHv.
      destruct next, compact; to_append; reflexivity.
  - (* UCL_OBJECT *)
    intros ov (IH & _ & _) buf tabs start_tabs compact. unfold elt_text_json.
    cbn [ucl_elt_write_json]. rewrite !ucl_elt_obj_write_json_eq. cbv zeta.
    rewrite !IH.
    destruct start_tabs, compact; to_append; reflexivity.
  - intros ov (_ & IH & _) buf tabs start_tabs compact. unfold elt_text_json.
    cbn [ucl_elt_write_json]. rewrite !ucl_elt_array_write_json_eq. cbv zeta.
    rewrite !IH.
    destruct start_tabs, compact; to_append; reflexivity.
  - intros iv buf tabs start_tabs compact. unfold elt_text_json.
    cbn [ucl_elt_write_json]. destruct start_tabs; to_append; reflexivity.
  - intros iv buf tabs start_tabs compact. unfold elt_text_json.
    cbn [ucl_elt_write_json]. destruct start_tabs; to_append; reflexivity.
  - intros iv buf tabs start_tabs compact. unfold elt_text_json.
    cbn [ucl_elt_write_json]. destruct start_tabs; to_append; reflexivity.
  - intros iv buf tabs start_tabs compact. unfold elt_text_json.
    cbn [ucl_elt_write_json]. destruct start_tabs; to_append; reflexivity.
  - intros iv buf tabs start_tabs compact. unfold elt_text_json.
    cbn [ucl_elt_write_json]. destruct start_tabs; to_append; reflexivity.
  - intros buf tabs start_tabs compact. unfold elt_text_json.
    cbn [ucl_elt_write_json]. now rewrite append_nil_r.
  - repeat split; intros; cbn; now rewrite append_nil_r.
  - intros o H. exact H.
Qed.

(** ** The RCL writers append to the buffer *)

Lemma ucl_elt_obj_write_rcl_eq obj buf tabs start_tabs is_top :
  ucl_elt_obj_write_rcl obj buf tabs start_tabs is_top =
  let buf :=
    ucl_add_tabs
      (while_obj_rcl tabs is_top obj
         (let buf := if start_tabs then ucl_add_tabs buf tabs is_top else buf in
          if negb is_top then utstring_append_len buf ("{" ++ nl) 2 else buf))
      tabs is_top in
  if negb is_top then utstring_append_c buf "}" else buf.
Proof. destruct obj; reflexivity. Qed.

Lemma ucl_elt_array_write_rcl_eq obj buf tabs start_tabs is_top :
  ucl_elt_array_write_rcl obj buf tabs start_tabs is_top =
  utstring_append_c
    (ucl_add_tabs
       (while_cur_array_rcl tabs obj
          (let buf := if start_tabs then ucl_add_tabs buf tabs false else buf in
           utstring_append_len buf ("[" ++ nl) 2))
       tabs false) "]".
Proof. destruct obj; reflexivity. Qed.

Lemma HASH_ITER_rcl_eq tabs is_top key v next hh buf :
  HASH_ITER_rcl tabs is_top (Ptr (UclObject key v next hh)) buf =
  HASH_ITER_rcl tabs is_top hh
    (let buf := ucl_add_tabs buf (uint_succ tabs) is_top in
     let buf := utstring_append_len buf key (strlen key) in
     let buf :=
       if negb (is_container v) then utstring_append_len buf " = " 3
       else utstring_append_c buf " " in
     let buf :=
       ucl_elt_write_rcl v buf (if is_top then tabs else uint_succ tabs)
         false false in
     if negb (is_container v) then utstring_append_len buf (";" ++ nl) 2
     else utstring_append_c buf LF).
Proof. reflexivity. Qed.

Lemma while_obj_rcl_eq tabs is_top key v next hh buf :
  while_obj_rcl tabs is_top (Ptr (UclObject key v next hh)) buf =
  while_obj_rcl tabs is_top next
    (HASH_ITER_rcl tabs is_top (Ptr (UclObject key v next hh)) buf).
Proof. reflexivity. Qed.

Lemma while_cur_array_rcl_eq tabs key v next hh buf :
  while_cur_array_rcl tabs (Ptr (UclObject key v next hh)) buf =
  while_cur_array_rcl tabs next
    (utstring_append_len
       (ucl_elt_write_rcl v buf (uint_succ tabs) true false) ("," ++ nl) 2).
Proof. reflexivity. Qed.

Lemma rcl_frame_all :
  (forall o, rcl_frames (Ptr o))
  /\ (forall v buf tabs start_tabs is_top,
        ucl_elt_write_rcl v buf tabs start_tabs is_top
        = buf ++ elt_text_rcl v tabs start_tabs is_top)
  /\ (forall p, rcl_frames p).
Proof.
  apply ucl_tree_ind.
  - intros key v IHv next (_ & IHn_obj & IHn_arr) hh (IHh & _ & _).
    assert (Hmem : forall buf tabs is_top,
               HASH_ITER_rcl tabs is_top (Ptr (UclObject key v next hh)) buf
               = buf ++ members_text_rcl tabs is_top (Ptr (UclObject key v next hh))).
    { intros buf tabs is_top. unfold members_text_rcl.
      rewrite !HASH_ITER_rcl_eq. cbv zeta. rewrite !IHh, !IHv.
      destruct (is_container v), is_top; to_append; reflexivity. }
    repeat split; try assumption.
    + intros buf tabs is_top. unfold tables_text_rcl.
      rewrite !while_obj_rcl_eq. rewrite !IHn_obj, !Hmem.
      to_append. reflexivity.
    + intros buf tabs. unfold elements_text_rcl.
      rewrite !while_cur_array_rcl_eq. rewrite !IHn_arr, !IHv.
      to_append. reflexivity.
  - intros ov (_ & IH & _) buf tabs start_tabs is_top. unfold elt_text_rcl.
    cbn [ucl_elt_write_rcl]. rewrite !ucl_elt_obj_write_rcl_eq. cbv zeta.
    rewrite !IH. destruct start_tabs, is_top; to_append; reflexivity.
  - intros ov (_ & _ & IH) buf tabs start_tabs is_top. unfold elt_text_rcl.
    cbn [ucl_elt_write_rcl]. rewrite !ucl_elt_array_write_rcl_eq. cbv zeta.
    rewrite !IH. destruct start_tabs; to_append; reflexivity.
  - intros iv buf tabs start_tabs is_top. unfold elt_text_rcl.
    cbn [ucl_elt_write_rcl]. destruct start_tabs; to_append; reflexivity.
  - intros dv buf tabs start_tabs is_top. unfold elt_text_rcl.
    cbn [ucl_elt_write_rcl]. destruct start_tabs; to_append; reflexivity.
  - intros sv buf tabs start_tabs is_top. unfold elt_text_rcl.
    cbn [ucl_elt_write_rcl]. destruct start_tabs; to_append; reflexivity.
  - intros bv buf tabs start_tabs is_top. unfold elt_text_rcl.
    cbn [ucl_elt_write_rcl]. destruct start_tabs; to_append; reflexivity.
  - intros dv buf tabs start_tabs is_top. unfold elt_text_rcl.
    cbn [ucl_elt_write_rcl]. destruct start_tabs; to_append; reflexivity.
  - intros buf tabs start_tabs is_top. unfold elt_text_rcl.
    cbn [ucl_elt_write_rcl]. now rewrite append_nil_r.
  - repeat split; intros; cbn; now rewrite append_nil_r.
  - intros o H. exact H.
Qed.

(** ** The YAML writers append to the buffer *)

Lemma ucl_elt_obj_write_yaml_eq obj buf tabs start_tabs is_top :
  ucl_elt_obj_write_yaml obj buf tabs start_tabs is_top =
  let buf :=
    ucl_add_tabs
      (while_obj_yaml tabs is_top obj
         (let buf := if start_tabs then ucl_add_tabs buf tabs is_top else buf in
          if negb is_top then utstring_append_len buf (": {" ++ nl) 4 else buf))
      tabs is_top in
  if negb is_top then utstring_append_c buf "}" else buf.
Proof. destruct obj; reflexivity. Qed.

Lemma ucl_elt_array_write_yaml_eq obj buf tabs start_tabs is_top :
  ucl_elt_array_write_yaml obj buf tabs start_tabs is_top =
  utstring_append_c
    (ucl_add_tabs
       (while_cur_array_yaml tabs obj
          (let buf := if start_tabs then ucl_add_tabs buf tabs false else buf in
           utstring_append_len buf (": [" ++ nl) 4))
       tabs false) "]".
Proof. destruct obj; reflexivity. Qed.

Lemma HASH_ITER_yaml_eq tabs is_top key v next hh buf :
  HASH_ITER_yaml tabs is_top (Ptr (UclObject key v next hh)) buf =
  HASH_ITER_yaml tabs is_top hh
    (let buf := ucl_add_tabs buf (uint_succ tabs) is_top in
     let buf := utstring_append_len buf key (strlen key) in
     let buf :=
       if negb (is_container v) then utstring_append_len buf " : " 3
       else utstring_append_c buf " " in
     let buf :=
       ucl_elt_write_yaml v buf (if is_top then tabs else uint_succ tabs)
         false false in
     if negb (is_container v) then utstring_append_len buf ("," ++ nl) 2
     else utstring_append_c buf LF).
Proof. reflexivity. Qed.

Lemma while_obj_yaml_eq tabs is_top key v next hh buf :
  while_obj_yaml tabs is_top (Ptr (UclObject key v next hh)) buf =
  while_obj_yaml tabs is_top next
    (HASH_ITER_yaml tabs is_top (Ptr (UclObject key v next hh)) buf).
Proof. reflexivity. Qed.

Lemma while_cur_array_yaml_eq tabs key v next hh buf :
  while_cur_array_yaml tabs (Ptr (UclObject key v next hh)) buf =
  while_cur_array_yaml tabs next
    (utstring_append_len
       (ucl_elt_write_yaml v buf (uint_succ tabs) true false) ("," ++ nl) 2).
Proof. reflexivity. Qed.

Lemma yaml_frame_all :
  (forall o, yaml_frames (Ptr o))
  /\ (forall v buf tabs start_tabs is_top,
        ucl_elt_write_yaml v buf tabs start_tabs is_top
        = buf ++ elt_text_yaml v tabs start_tabs is_top)
  /\ (forall p, yaml_frames p).
Proof.
  apply ucl_tree_ind.
  - intros key v IHv next (_ & IHn_obj & IHn_arr) hh (IHh & _ & _).
    assert (Hmem : forall buf tabs is_top,
               HASH_ITER_yaml tabs is_top (Ptr (UclObject key v next hh)) buf
               = buf ++ members_text_yaml tabs is_top (Ptr (UclObject key v next hh))).
    { intros buf tabs is_top. unfold members_text_yaml.
      rewrite !HASH_ITER_yaml_eq. cbv zeta. rewrite !IHh, !IHv.
      destruct (is_container v), is_top; to_append; reflexivity. }
    repeat split; try assumption.
    + intros buf tabs is_top. unfold tables_text_yaml.
      rewrite !while_obj_yaml_eq. rewrite !IHn_obj, !Hmem.
      to_append. reflexivity.
    + intros buf tabs. unfold elements_text_yaml.
      rewrite !while_cur_array_yaml_eq. rewrite !IHn_arr, !IHv.
      to_append. reflexivity.
  - intros ov (_ & IH & _) buf tabs start_tabs is_top. unfold elt_text_yaml.
    cbn [ucl_elt_write_yaml]. rewrite !ucl_elt_obj_write_yaml_eq. cbv zeta.
    rewrite !IH. destruct start_tabs, is_top; to_append; reflexivity.
  - intros ov (_ & _ & IH) buf tabs start_tabs is_top. unfold elt_text_yaml.
    cbn [ucl_elt_write_yaml]. rewrite !ucl_elt_array_write_yaml_eq. cbv zeta.
    rewrite !IH. destruct start_tabs; to_append; reflexivity.
  - intros iv buf tabs start_tabs is_top. unfold elt_text_yaml.
    cbn [ucl_elt_write_yaml]. destruct start_tabs; to_append; reflexivity.
  - intros dv buf tabs start_tabs is_top. unfold elt_text_yaml.
    cbn [ucl_elt_write_yaml]. destruct start_tabs; to_append; reflexivity.
  - intros sv buf tabs start_tabs is_top. unfold elt_text_yaml.
    cbn [ucl_elt_write_yaml]. destruct start_tabs; to_append; reflexivity.
  - intros bv buf tabs start_tabs is_top. unfold elt_text_yaml.
    cbn [ucl_elt_write_yaml]. destruct start_tabs; to_append; reflexivity.
  - intros dv buf tabs start_tabs is_top. unfold elt_text_yaml.
    cbn [ucl_elt_write_yaml]. destruct start_tabs; to_append; reflexivity.
  - intros buf tabs start_tabs is_top. unfold elt_text_yaml.
    cbn [ucl_elt_write_yaml]. now rewrite append_nil_r.
  - repeat split; intros; cbn; now rewrite append_nil_r.
  - intros o H. exact H.
Qed.

(** ** Equations for the appended text *)

Lemma ucl_elt_write_json_frame v buf tabs start_tabs compact :
  ucl_elt_write_json v buf tabs start_tabs compact
  = buf ++ elt_text_json v tabs start_tabs compact.
Proof. apply json_frame_all. Qed.

Lemma HASH_ITER_json_frame tabs compact p buf :
  HASH_ITER_json tabs compact p buf = buf ++ members_text_json tabs compact p.
Proof. apply (proj2 (proj2 json_frame_all) p). Qed.

Lemma while_cur_array_json_frame tabs compact p buf :
  while_cur_array_json tabs compact p buf
  = buf ++ elements_text_json tabs compact p.
Proof. apply (proj2 (proj2 json_frame_all) p). Qed.

Lemma ucl_obj_write_json_frame o buf tabs start_tabs compact :
  ucl_obj_write_json o buf tabs start_tabs compact
  = buf ++ obj_text_json o tabs start_tabs compact.
Proof. apply (proj1 json_frame_all o). Qed.

Lemma while_cur_chain_json_frame tabs compact o buf :
  while_cur_chain_json tabs compact o buf = buf ++ chain_text_json tabs compact o.
Proof. apply (proj1 json_frame_all o). Qed.

Ltac json_frames :=
  rewrite ?HASH_ITER_json_frame, ?while_cur_array_json_frame,
    ?while_cur_chain_json_frame, ?ucl_obj_write_json_frame,
    ?ucl_elt_write_json_frame.

Lemma elt_text_json_scalar v tabs start_tabs compact :
  is_container v = false ->
  elt_text_json v tabs start_tabs compact =
  match v with
  | UCL_INT iv => start_text start_tabs tabs compact ++ printf_ld (long_int iv)
  | UCL_FLOAT dv | UCL_TIME dv => start_text start_tabs tabs compact ++ printf_lf dv
  | UCL_BOOLEAN bv =>
      start_text start_tabs tabs compact ++ (if bv then "true" else "false")
  | UCL_STRING sv => start_text start_tabs tabs compact ++ string_text sv
  | _ => ""
  end.
Proof.
  unfold elt_text_json, start_text.
  destruct v; try discriminate; intros _; cbn [ucl_elt_write_json];
    try destruct bv; destruct start_tabs; to_append; reflexivity.
Qed.

Lemma elt_text_json_object ov tabs start_tabs compact :
  elt_text_json (UCL_OBJECT ov) tabs start_tabs compact =
  start_text start_tabs tabs compact ++ json_open "{" compact
  ++ members_text_json tabs compact ov ++ tabs_text tabs compact ++ "}".
Proof.
  unfold elt_text_json, start_text, json_open. cbn [ucl_elt_write_json].
  rewrite ucl_elt_obj_write_json_eq. cbv zeta. json_frames.
  destruct start_tabs, compact; to_append; reflexivity.
Qed.

Lemma elt_text_json_array ov tabs start_tabs compact :
  elt_text_json (UCL_ARRAY ov) tabs start_tabs compact =
  start_text start_tabs tabs compact ++ json_open "[" compact
  ++ elements_text_json tabs compact ov ++ tabs_text tabs compact ++ "]".
Proof.
  unfold elt_text_json, start_text, json_open. cbn [ucl_elt_write_json].
  rewrite ucl_elt_array_write_json_eq. cbv zeta. json_frames.
  destruct start_tabs, compact; to_append; reflexivity.
Qed.

Lemma elements_text_json_cons tabs compact key v next hh :
  elements_text_json tabs compact (Ptr (UclObject key v next hh)) =
  elt_text_json v (uint_succ tabs) true compact ++ json_sep compact next
  ++ elements_text_json tabs compact next.
Proof.
  unfold elements_text_json at 1, json_sep. rewrite while_cur_array_json_eq.
  cbv zeta. json_frames. destruct next, compact; to_append; reflexivity.
Qed.

Lemma chain_text_json_elements tabs compact o :
  chain_text_json tabs compact o = elements_text_json tabs compact (Ptr o).
Proof.
  revert o.
  refine (ucl_object_t_mut
            (fun o => chain_text_json tabs compact o
                      = elements_text_json tabs compact (Ptr o))
            (fun _ => True)
            (fun p => match p with
                      | NULL => True
                      | Ptr o => chain_text_json tabs compact o
                                 = elements_text_json tabs compact (Ptr o)
                      end) _ _ _ _ _ _ _ _ _ _ _); try exact I; try (intros; exact I).
  - intros key v _ next IHn hh _.
    rewrite elements_text_json_cons. unfold chain_text_json at 1.
    rewrite while_cur_chain_json_eq. cbv zeta. unfold json_sep.
    destruct next as [|n].
    + json_frames. destruct compact; to_append; reflexivity.
    + json_frames. rewrite IHn. destruct compact; to_append; reflexivity.
  - intros o H. exact H.
Qed.

Lemma obj_text_json_eq o tabs start_tabs compact :
  obj_text_json o tabs start_tabs compact =
  if is_null (obj_next o) then elt_text_json (obj_value o) tabs start_tabs compact
  else
    start_text start_tabs tabs compact ++ json_open "[" compact
    ++ elements_text_json tabs compact (Ptr o) ++ tabs_text tabs compact ++ "]".
Proof.
  unfold obj_text_json, start_text, json_open. rewrite ucl_obj_write_json_eq.
  destruct (is_null (obj_next o)); cbn [negb]; [reflexivity |].
  cbv zeta. json_frames. rewrite chain_text_json_elements.
  destruct start_tabs, compact; to_append; reflexivity.
Qed.

Lemma members_text_json_cons tabs compact m :
  members_text_json tabs compact (Ptr m) =
  member_text_json tabs compact m
  ++ members_text_json tabs compact (obj_hh_next m).
Proof.
  destruct m as [key v next hh].
  unfold members_text_json at 1, member_text_json, json_sep.
  rewrite HASH_ITER_json_eq. cbv zeta. json_frames. cbn [obj_key obj_hh_next].
  destruct hh, compact; to_append; reflexivity.
Qed.

Lemma concat_text_cons (x : string) (l : list string) :
  concat_text (x :: l) = x ++ concat_text l.
Proof.
  unfold concat_text. destruct l; simpl; [now rewrite append_nil_r | reflexivity].
Qed.

Lemma members_text_json_list tabs compact p :
  members_text_json tabs compact p
  = concat_text (map (member_text_json tabs compact) (hh_list p)).
Proof.
  revert p.
  refine (ucl_ptr_mut
            (fun o => members_text_json tabs compact (Ptr o)
                      = concat_text (map (member_text_json tabs compact)
                                       (hh_list (Ptr o))))
            (fun _ => True)
            (fun p => members_text_json tabs compact p
                      = concat_text (map (member_text_json tabs compact)
                                       (hh_list p)))
            _ _ _ _ _ _ _ _ _ _ _); try exact I; try (intros; exact I).
  - intros key v _ next _ hh IHh.
    rewrite members_text_json_cons. cbn [hh_list map obj_hh_next].
    rewrite concat_text_cons. now rewrite IHh.
  - reflexivity.
  - intros o H. exact H.
Qed.

Lemma concat_text_app (l1 l2 : list string) :
  concat_text (l1 ++ l2) = concat_text l1 ++ concat_text l2.
Proof.
  induction l1 as [|x l1 IH]; [reflexivity |].
  cbn [app]. rewrite !concat_text_cons, IH, append_assoc. reflexivity.
Qed.

(** Equations for the text appended by the RCL writers. *)

Lemma ucl_elt_write_rcl_frame v buf tabs start_tabs is_top :
  ucl_elt_write_rcl v buf tabs start_tabs is_top
  = buf ++ elt_text_rcl v tabs start_tabs is_top.
Proof. apply rcl_frame_all. Qed.

Lemma HASH_ITER_rcl_frame tabs is_top p buf :
  HASH_ITER_rcl tabs is_top p buf = buf ++ members_text_rcl tabs is_top p.
Proof. apply (proj2 (proj2 rcl_frame_all) p). Qed.

Lemma while_obj_rcl_frame tabs is_top p buf :
  while_obj_rcl tabs is_top p buf = buf ++ tables_text_rcl tabs is_top p.
Proof. apply (proj2 (proj2 rcl_frame_all) p). Qed.

Lemma while_cur_array_rcl_frame tabs p buf :
  while_cur_array_rcl tabs p buf = buf ++ elements_text_rcl tabs p.
Proof. apply (proj2 (proj2 rcl_frame_all) p). Qed.

Ltac rcl_frames :=
  rewrite ?HASH_ITER_rcl_frame, ?while_obj_rcl_frame,
    ?while_cur_array_rcl_frame, ?ucl_elt_write_rcl_frame.

Lemma elt_text_rcl_object ov tabs start_tabs is_top :
  elt_text_rcl (UCL_OBJECT ov) tabs start_tabs is_top =
  start_text start_tabs tabs is_top
  ++ (if is_top then "" else "{" ++ nl)
  ++ tables_text_rcl tabs is_top ov
  ++ tabs_text tabs is_top ++ (if is_top then "" else "}").
Proof.
  unfold elt_text_rcl, start_text. cbn [ucl_elt_write_rcl].
  rewrite ucl_elt_obj_write_rcl_eq. cbv zeta. rcl_frames.
  destruct start_tabs, is_top; to_append; reflexivity.
Qed.

Lemma elt_text_rcl_array ov tabs start_tabs is_top :
  elt_text_rcl (UCL_ARRAY ov) tabs start_tabs is_top =
  start_text start_tabs tabs false ++ "[" ++ nl
  ++ elements_text_rcl tabs ov ++ tabs_text tabs false ++ "]".
Proof.
  unfold elt_text_rcl, start_text. cbn [ucl_elt_write_rcl].
  rewrite ucl_elt_array_write_rcl_eq. cbv zeta. rcl_frames.
  destruct start_tabs; to_append; reflexivity.
Qed.

Lemma elements_text_rcl_cons tabs key v next hh :
  elements_text_rcl tabs (Ptr (UclObject key v next hh)) =
  elt_text_rcl v (uint_succ tabs) true false ++ "," ++ nl
  ++ elements_text_rcl tabs next.
Proof.
  unfold elements_text_rcl at 1. rewrite while_cur_array_rcl_eq.
  rcl_frames. to_append. reflexivity.
Qed.

Lemma members_text_rcl_cons tabs is_top m :
  members_text_rcl tabs is_top (Ptr m) =
  member_text_rcl tabs is_top m
  ++ members_text_rcl tabs is_top (obj_hh_next m).
Proof.
  destruct m as [key v next hh].
  unfold members_text_rcl at 1, member_text_rcl, statement_rcl.
  rewrite HASH_ITER_rcl_eq. cbv zeta. rcl_frames.
  cbn [obj_key obj_value obj_hh_next]. fold (c_str key).
  destruct (is_container v), is_top; to_append; reflexivity.
Qed.

Lemma tables_text_rcl_cons tabs is_top o :
  tables_text_rcl tabs is_top (Ptr o) =
  members_text_rcl tabs is_top (Ptr o)
  ++ tables_text_rcl tabs is_top (obj_next o).
Proof.
  destruct o as [key v next hh]. unfold tables_text_rcl at 1.
  rewrite while_obj_rcl_eq. rcl_frames. reflexivity.
Qed.

Lemma members_text_rcl_list tabs is_top p :
  members_text_rcl tabs is_top p
  = concat_text (map (member_text_rcl tabs is_top) (hh_list p)).
Proof.
  revert p.
  refine (ucl_ptr_mut
            (fun o => members_text_rcl tabs is_top (Ptr o)
                      = concat_text (map (member_text_rcl tabs is_top)
                                       (hh_list (Ptr o))))
            (fun _ => True)
            (fun p => members_text_rcl tabs is_top p
                      = concat_text (map (member_text_rcl tabs is_top)
                                       (hh_list p)))
            _ _ _ _ _ _ _ _ _ _ _); try exact I; try (intros; exact I).
  - intros key v _ next _ hh IHh.
    rewrite members_text_rcl_cons. cbn [hh_list map obj_hh_next].
    rewrite concat_text_cons. now rewrite IHh.
  - reflexivity.
  - intros o H. exact H.
Qed.

Lemma tables_text_rcl_list tabs is_top p :
  tables_text_rcl tabs is_top p
  = concat_text (map (member_text_rcl tabs is_top) (chained_members p)).
Proof.
  revert p.
  refine (ucl_ptr_mut
            (fun o => tables_text_rcl tabs is_top (Ptr o)
                      = concat_text (map (member_text_rcl tabs is_top)
                                       (chained_members (Ptr o))))
            (fun _ => True)
            (fun p => tables_text_rcl tabs is_top p
                      = concat_text (map (member_text_rcl tabs is_top)
                                       (chained_members p)))
            _ _ _ _ _ _ _ _ _ _ _); try exact I; try (intros; exact I).
  - intros key v _ next IHn hh _.
    rewrite tables_text_rcl_cons. cbn [obj_next].
    rewrite IHn, members_text_rcl_list.
    unfold chained_members. cbn [next_list flat_map].
    rewrite map_app, concat_text_app. reflexivity.
  - reflexivity.
  - intros o H. exact H.
Qed.

(** Equations for the text appended by the YAML writers. *)

Lemma ucl_elt_write_yaml_frame v buf tabs start_tabs is_top :
  ucl_elt_write_yaml v buf tabs start_tabs is_top
  = buf ++ elt_text_yaml v tabs start_tabs is_top.
Proof. apply yaml_frame_all. Qed.

Lemma HASH_ITER_yaml_frame tabs is_top p buf :
  HASH_ITER_yaml tabs is_top p buf = buf ++ members_text_yaml tabs is_top p.
Proof. apply (proj2 (proj2 yaml_frame_all) p). Qed.

Lemma while_obj_yaml_frame tabs is_top p buf :
  while_obj_yaml tabs is_top p buf = buf ++ tables_text_yaml tabs is_top p.
Proof. apply (proj2 (proj2 yaml_frame_all) p). Qed.

Lemma while_cur_array_yaml_frame tabs p buf :
  while_cur_array_yaml tabs p buf = buf ++ elements_text_yaml tabs p.
Proof. apply (proj2 (proj2 yaml_frame_all) p). Qed.

Ltac yaml_frames :=
  rewrite ?HASH_ITER_yaml_frame, ?while_obj_yaml_frame,
    ?while_cur_array_yaml_frame, ?ucl_elt_write_yaml_frame.

Lemma elt_text_yaml_object ov tabs start_tabs is_top :
  elt_text_yaml (UCL_OBJECT ov) tabs start_tabs is_top =
  start_text start_tabs tabs is_top
  ++ (if is_top then "" else ": {" ++ nl)
  ++ tables_text_yaml tabs is_top ov
  ++ tabs_text tabs is_top ++ (if is_top then "" else "}").
Proof.
  unfold elt_text_yaml, start_text. cbn [ucl_elt_write_yaml].
  rewrite ucl_elt_obj_write_yaml_eq. cbv zeta. yaml_frames.
  destruct start_tabs, is_top; to_append; reflexivity.
Qed.

Lemma elt_text_yaml_array ov tabs start_tabs is_top :
  elt_text_yaml (UCL_ARRAY ov) tabs start_tabs is_top =
  start_text start_tabs tabs false ++ ": [" ++ nl
  ++ elements_text_yaml tabs ov ++ tabs_text tabs false ++ "]".
Proof.
  unfold elt_text_yaml, start_text. cbn [ucl_elt_write_yaml].
  rewrite ucl_elt_array_write_yaml_eq. cbv zeta. yaml_frames.
  destruct start_tabs; to_append; reflexivity.
Qed.

Lemma elements_text_yaml_cons tabs key v next hh :
  elements_text_yaml tabs (Ptr (UclObject key v next hh)) =
  elt_text_yaml v (uint_succ tabs) true false ++ "," ++ nl
  ++ elements_text_yaml tabs next.
Proof.
  unfold elements_text_yaml at 1. rewrite while_cur_array_yaml_eq.
  yaml_frames. to_append. reflexivity.
Qed.

Lemma members_text_yaml_cons tabs is_top m :
  members_text_yaml tabs is_top (Ptr m) =
  member_text_yaml tabs is_top m
  ++ members_text_yaml tabs is_top (obj_hh_next m).
Proof.
  destruct m as [key v next hh].
  unfold members_text_yaml at 1, member_text_yaml, statement_yaml.
  rewrite HASH_ITER_yaml_eq. cbv zeta. yaml_frames.
  cbn [obj_key obj_value obj_hh_next]. fold (c_str key).
  destruct (is_container v), is_top; to_append; reflexivity.
Qed.

Lemma tables_text_yaml_cons tabs is_top o :
  tables_text_yaml tabs is_top (Ptr o) =
  members_text_yaml tabs is_top (Ptr o)
  ++ tables_text_yaml tabs is_top (obj_next o).
Proof.
  destruct o as [key v next hh]. unfold tables_text_yaml at 1.
  rewrite while_obj_yaml_eq. yaml_frames. reflexivity.
Qed.

Lemma members_text_yaml_list tabs is_top p :
  members_text_yaml tabs is_top p
  = concat_text (map (member_text_yaml tabs is_top) (hh_list p)).
Proof.
  revert p.
  refine (ucl_ptr_mut
            (fun o => members_text_yaml tabs is_top (Ptr o)
                      = concat_text (map (member_text_yaml tabs is_top)
                                       (hh_list (Ptr o))))
            (fun _ => True)
            (fun p => members_text_yaml tabs is_top p
                      = concat_text (map (member_text_yaml tabs is_top)
                                       (hh_list p)))
            _ _ _ _ _ _ _ _ _ _ _); try exact I; try (intros; exact I).
  - intros key v _ next _ hh IHh.
    rewrite members_text_yaml_cons. cbn [hh_list map obj_hh_next].
    rewrite concat_text_cons. now rewrite IHh.
  - reflexivity.
  - intros o H. exact H.
Qed.

Lemma tables_text_yaml_list tabs is_top p :
  tables_text_yaml tabs is_top p
  = concat_text (map (member_text_yaml tabs is_top) (chained_members p)).
Proof.
  revert p.
  refine (ucl_ptr_mut
            (fun o => tables_text_yaml tabs is_top (Ptr o)
                      = concat_text (map (member_text_yaml tabs is_top)
                                       (chained_members (Ptr o))))
            (fun _ => True)
            (fun p => tables_text_yaml tabs is_top p
                      = concat_text (map (member_text_yaml tabs is_top)
                                       (chained_members p)))
            _ _ _ _ _ _ _ _ _ _ _); try exact I; try (intros; exact I).
  - intros key v _ next IHn hh _.
    rewrite tables_text_yaml_cons. cbn [obj_next].
    rewrite IHn, members_text_yaml_list.
    unfold chained_members. cbn [next_list flat_map].
    rewrite map_app, concat_text_app. reflexivity.
  - reflexivity.
  - intros o H. exact H.
Qed.

(** ** The escaper against the escaping rule (C2, C3) *)

Lemma json_escape_no_special (s : string) :
  no_special s = true -> json_escape s = s.
Proof.
  induction s as [|c s IH]; [reflexivity |].
  cbn [no_special json_escape]. intros H.
  apply andb_true_iff in H. destruct H as [Hc Hs].
  rewrite (IH Hs). unfold json_escape_char. unfold is_special in Hc.
  destruct (Ascii.eqb c LF), (Ascii.eqb c CR), (Ascii.eqb c BS),
    (Ascii.eqb c HT), (Ascii.eqb c FF), (Ascii.eqb c BACKSLASH),
    (Ascii.eqb c DQUOTE); try discriminate Hc.
  reflexivity.
Qed.

Lemma json_unescape_escape (s : string) : json_unescape (json_escape s) = Some s.
Proof.
  induction s as [|c s IH]; [reflexivity |].
  cbn [json_escape].
  destruct c as [[] [] [] [] [] [] [] []];
    cbn -[json_unescape];
    cbn [json_unescape append Ascii.eqb Bool.eqb BACKSLASH DQUOTE];
    try (rewrite IH; reflexivity);
    try (cbn; rewrite IH; reflexivity).
Qed.

Lemma strip_closing_quote_app (body : string) :
  strip_closing_quote (body ++ dq) = Some body.
Proof.
  induction body as [|c body IH]; [reflexivity |].
  cbn [append strip_closing_quote]. rewrite IH.
  destruct body; reflexivity.
Qed.

Lemma parse_json_string_quoted (body : string) :
  parse_json_string (dq ++ body ++ dq) = json_unescape body.
Proof.
  unfold parse_json_string, strip_quotes. cbn [dq append].
  change (String DQUOTE "") with dq.
  rewrite strip_closing_quote_app. reflexivity.
Qed.

(** C2: the escaper is a total function; for a string [str] (a C
    string, which holds no NUL byte) it appends a quotation mark, then
    for each character of [str] in turn either its two-character escape
    (newline, carriage return, backspace, tabulation, form feed,
    backslash, quotation mark) or the character itself, then a
    quotation mark.  The empty string gives two quotation marks. *)
Theorem escaper_quotes_and_escapes (str : string) (buf : UT_string) :
  nul_free str = true ->
  ucl_elt_string_write_json str buf = buf ++ dq ++ json_escape str ++ dq.
Proof.
  intros H. rewrite ucl_elt_string_write_json_app, (c_str_nul_free str H).
  reflexivity.
Qed.

(** C3: reading the escaper's output back as a JSON string literal
    (quotation marks removed, escapes undone) gives the string that was
    written; and a string without any of the seven escaped characters
    is written unchanged between two quotation marks. *)
Theorem escaper_round_trip (str : string) :
  nul_free str = true ->
  parse_json_string (ucl_elt_string_write_json str "") = Some str
  /\ (no_special str = true ->
      ucl_elt_string_write_json str "" = dq ++ str ++ dq).
Proof.
  intros H. rewrite ucl_elt_string_write_json_app, (c_str_nul_free str H).
  cbn [append]. split.
  - rewrite parse_json_string_quoted. apply json_unescape_escape.
  - intros Hs. now rewrite json_escape_no_special.
Qed.

(** ** Two concrete documents (C5, C8) *)

(** C5: for [Object{a: Integer 1, b: Array[String x, Boolean true]}]
    the compact JSON text is the object on one line without blanks,
    and the RCL text is the statement for [a] followed by the array
    [b] with one element per line, each indented by four spaces and
    followed by a comma, the last one included. *)
Theorem emit_ab_tree :
  ucl_object_emit_json Samples.ab_tree true
  = "{" ++ dq ++ "a" ++ dq ++ ":1," ++ dq ++ "b" ++ dq ++ ":["
    ++ dq ++ "x" ++ dq ++ ",true]}"
  /\ ucl_object_emit_rcl Samples.ab_tree
     = "a = 1;" ++ nl
       ++ "b [" ++ nl
       ++ "    " ++ dq ++ "x" ++ dq ++ "," ++ nl
       ++ "    true," ++ nl
       ++ "]" ++ nl.
Proof. split; reflexivity. Qed.

(** C8: for the object without members the compact JSON text is the
    two braces, and the RCL text of the top level is empty: neither
    an opening nor a closing brace is written. *)
Theorem emit_empty_object :
  ucl_object_emit_json Samples.empty_object true = "{}"
  /\ ucl_object_emit_rcl Samples.empty_object = "".
Proof. split; reflexivity. Qed.

(** ** The dispatcher (C6, C9) *)

(** C6: when the three selectors are distinct values, the dispatcher
    returns the pretty JSON text for the JSON selector, the compact
    JSON text for the compact selector, the YAML text for the YAML
    selector and the RCL text for every other value of the selector. *)
Theorem emit_dispatch (obj : ucl_object_t) (emit_type : Z) :
  UCL_EMIT_JSON <> UCL_EMIT_JSON_COMPACT ->
  UCL_EMIT_JSON <> UCL_EMIT_YAML ->
  UCL_EMIT_JSON_COMPACT <> UCL_EMIT_YAML ->
  (emit_type = UCL_EMIT_JSON ->
   ucl_object_emit obj emit_type = Some (ucl_object_emit_json obj false))
  /\ (emit_type = UCL_EMIT_JSON_COMPACT ->
      ucl_object_emit obj emit_type = Some (ucl_object_emit_json obj true))
  /\ (emit_type = UCL_EMIT_YAML ->
      ucl_object_emit obj emit_type = Some (ucl_object_emit_yaml obj))
  /\ (emit_type <> UCL_EMIT_JSON ->
      emit_type <> UCL_EMIT_JSON_COMPACT ->
      emit_type <> UCL_EMIT_YAML ->
      ucl_object_emit obj emit_type = Some (ucl_object_emit_rcl obj)).
Proof.
  intros Hjc Hjy Hcy. unfold ucl_object_emit, ucl_object_emit_select.
  repeat split.
  - intros ->. now rewrite Z.eqb_refl.
  - intros ->. apply not_eq_sym, Z.eqb_neq in Hjc. now rewrite Hjc, Z.eqb_refl.
  - intros ->. apply not_eq_sym, Z.eqb_neq in Hjy.
    apply not_eq_sym, Z.eqb_neq in Hcy. now rewrite Hjy, Hcy, Z.eqb_refl.
  - intros Hj Hc Hy. apply Z.eqb_neq in Hj, Hc, Hy. now rewrite Hj, Hc, Hy.
Qed.

(** C9: whatever the tree and the selector, one branch of the
    selection returns, so the statement after it is never reached, and
    the result is a (non-null) pointer to the text of the rendering
    that the selector stands for. *)
Theorem emit_never_null (obj : ucl_object_t) (emit_type : Z) :
  ucl_object_emit_select obj emit_type <> Continue
  /\ ucl_object_emit obj emit_type <> None
  /\ exists text,
      ucl_object_emit_select obj emit_type = Return (Some text)
      /\ ucl_object_emit obj emit_type = Some text
      /\ text
         = if Z.eqb emit_type UCL_EMIT_JSON then ucl_object_emit_json obj false
           else if Z.eqb emit_type UCL_EMIT_JSON_COMPACT
                then ucl_object_emit_json obj true
           else if Z.eqb emit_type UCL_EMIT_YAML then ucl_object_emit_yaml obj
           else ucl_object_emit_rcl obj.
Proof.
  unfold ucl_object_emit, ucl_object_emit_select.
  destruct (Z.eqb emit_type UCL_EMIT_JSON);
    [| destruct (Z.eqb emit_type UCL_EMIT_JSON_COMPACT);
       [| destruct (Z.eqb emit_type UCL_EMIT_YAML)]];
    (split; [discriminate | split; [discriminate |]]);
    eexists; (split; [reflexivity | split; reflexivity]).
Qed.

(** ** User-data nodes (C7) *)

(** C7, as the code has it: a user-data node makes no writer of any
    of the three formats append a byte, and the loops over the
    elements of an array or of a chain go on with the elements that
    follow it; but the separator that belongs to the position of the
    user-data node is still written (in JSON the comma when an element
    follows and the newline of the pretty mode, in RCL and YAML the
    comma and the newline), so the text is not the one of the same
    array without that node. *)
Theorem userdata_writes_nothing_but_separator :
  (forall buf tabs start_tabs compact,
      ucl_elt_write_json UCL_USERDATA buf tabs start_tabs compact = buf)
  /\ (forall buf tabs start_tabs is_top,
        ucl_elt_write_rcl UCL_USERDATA buf tabs start_tabs is_top = buf)
  /\ (forall buf tabs start_tabs is_top,
        ucl_elt_write_yaml UCL_USERDATA buf tabs start_tabs is_top = buf)
  /\ (forall tabs compact key next hh,
        elements_text_json tabs compact (Ptr (UclObject key UCL_USERDATA next hh))
        = json_sep compact next ++ elements_text_json tabs compact next)
  /\ (forall tabs compact key following hh,
        chain_text_json tabs compact
          (UclObject key UCL_USERDATA (Ptr following) hh)
        = json_sep compact (Ptr following)
          ++ chain_text_json tabs compact following)
  /\ (forall tabs key next hh,
        elements_text_rcl tabs (Ptr (UclObject key UCL_USERDATA next hh))
        = "," ++ nl ++ elements_text_rcl tabs next)
  /\ (forall tabs key next hh,
        elements_text_yaml tabs (Ptr (UclObject key UCL_USERDATA next hh))
        = "," ++ nl ++ elements_text_yaml tabs next).
Proof.
  repeat split; try reflexivity.
  - intros. now rewrite elements_text_json_cons.
  - intros. now rewrite !chain_text_json_elements, elements_text_json_cons.
  - intros. now rewrite elements_text_rcl_cons.
  - intros. now rewrite elements_text_yaml_cons.
Qed.

(** ** Keys (C10) *)

Lemma forallb_chained_members_hh (f : ucl_object_t -> bool) (p : ucl_ptr) :
  forallb f (chained_members p) = true -> forallb f (hh_list p) = true.
Proof.
  destruct p as [|[key v next hh]]; [reflexivity |].
  unfold chained_members. cbn [next_list flat_map].
  rewrite forallb_app. intros H. apply andb_true_iff in H. apply H.
Qed.

Lemma map_ext_forallb {A B : Type} (f g : A -> B) (ok : A -> bool) (l : list A) :
  (forall a, ok a = true -> f a = g a) ->
  forallb ok l = true -> map f l = map g l.
Proof.
  intros Hfg. induction l as [|a l IH]; [reflexivity |].
  cbn [forallb map]. intros H. apply andb_true_iff in H. destruct H as [Ha Hl].
  now rewrite (Hfg a Ha), (IH Hl).
Qed.

Lemma ucl_elt_obj_write_json_text obj tabs start_tabs compact :
  ucl_elt_obj_write_json obj "" tabs start_tabs compact
  = start_text start_tabs tabs compact ++ json_open "{" compact
    ++ concat_text (map (member_text_json tabs compact) (hh_list obj))
    ++ tabs_text tabs compact ++ "}".
Proof.
  rewrite <- members_text_json_list, <- elt_text_json_object. reflexivity.
Qed.

Lemma ucl_elt_obj_write_rcl_text obj tabs start_tabs is_top :
  ucl_elt_obj_write_rcl obj "" tabs start_tabs is_top
  = start_text start_tabs tabs is_top
    ++ (if is_top then "" else "{" ++ nl)
    ++ concat_text (map (member_text_rcl tabs is_top) (chained_members obj))
    ++ tabs_text tabs is_top ++ (if is_top then "" else "}").
Proof.
  rewrite <- tables_text_rcl_list, <- elt_text_rcl_object. reflexivity.
Qed.

Lemma ucl_elt_obj_write_yaml_text obj tabs start_tabs is_top :
  ucl_elt_obj_write_yaml obj "" tabs start_tabs is_top
  = start_text start_tabs tabs is_top
    ++ (if is_top then "" else ": {" ++ nl)
    ++ concat_text (map (member_text_yaml tabs is_top) (chained_members obj))
    ++ tabs_text tabs is_top ++ (if is_top then "" else "}").
Proof.
  rewrite <- tables_text_yaml_list, <- elt_text_yaml_object. reflexivity.
Qed.

(** C10: the text the RCL and the YAML renderer write for an object
    is, between its opening and its closing, one statement per member,
    and each statement is the indentation followed by the bytes of the
    key as they are, without quotation marks and without escapes; the
    text of the JSON renderer has, for each member, the indentation
    followed by the key between quotation marks with the escapes of
    the string escaper. *)
Theorem keys_raw_in_rcl_yaml_quoted_in_json
    (obj : ucl_ptr) (tabs : N) (start_tabs flag : bool) :
  forallb (fun m => nul_free (obj_key m)) (chained_members obj) = true ->
  ucl_elt_obj_write_rcl obj "" tabs start_tabs flag
  = start_text start_tabs tabs flag
    ++ (if flag then "" else "{" ++ nl)
    ++ concat_text
         (map (fun m =>
                 tabs_text (uint_succ tabs) flag
                 ++ obj_key m
                 ++ (if is_container (obj_value m) then " " else " = ")
                 ++ elt_text_rcl (obj_value m)
                      (if flag then tabs else uint_succ tabs) false false
                 ++ (if is_container (obj_value m) then nl else ";" ++ nl))
            (chained_members obj))
    ++ tabs_text tabs flag ++ (if flag then "" else "}")
  /\ ucl_elt_obj_write_yaml obj "" tabs start_tabs flag
     = start_text start_tabs tabs flag
       ++ (if flag then "" else ": {" ++ nl)
       ++ concat_text
            (map (fun m =>
                    tabs_text (uint_succ tabs) flag
                    ++ obj_key m
                    ++ (if is_container (obj_value m) then " " else " : ")
                    ++ elt_text_yaml (obj_value m)
                         (if flag then tabs else uint_succ tabs) false false
                    ++ (if is_container (obj_value m) then nl else "," ++ nl))
               (chained_members obj))
       ++ tabs_text tabs flag ++ (if flag then "" else "}")
  /\ ucl_elt_obj_write_json obj "" tabs start_tabs flag
     = start_text start_tabs tabs flag ++ json_open "{" flag
       ++ concat_text
            (map (fun m =>
                    tabs_text (uint_succ tabs) flag
                    ++ (dq ++ json_escape (obj_key m) ++ dq)
                    ++ (if flag then ":" else ": ")
                    ++ obj_text_json m (uint_succ tabs) false flag
                    ++ json_sep flag (obj_hh_next m))
               (hh_list obj))
       ++ tabs_text tabs flag ++ "}".
Proof.
  intros Hkeys. repeat split.
  - rewrite ucl_elt_obj_write_rcl_text. do 4 f_equal.
    apply map_ext_forallb with (ok := fun m => nul_free (obj_key m));
      [| exact Hkeys].
    intros m Hm. unfold member_text_rcl, statement_rcl.
    now rewrite (c_str_nul_free _ Hm).
  - rewrite ucl_elt_obj_write_yaml_text. do 4 f_equal.
    apply map_ext_forallb with (ok := fun m => nul_free (obj_key m));
      [| exact Hkeys].
    intros m Hm. unfold member_text_yaml, statement_yaml.
    now rewrite (c_str_nul_free _ Hm).
  - rewrite ucl_elt_obj_write_json_text. do 4 f_equal.
    apply map_ext_forallb with (ok := fun m => nul_free (obj_key m));
      [| now apply forallb_chained_members_hh].
    intros m Hm. unfold member_text_json.
    now rewrite string_text_eq, (c_str_nul_free _ Hm).
Qed.

(** ** Two values under one key (C1) *)

(** C1, as the code has it.  Let [first] be a member with key [key]
    and value [v1] whose sibling link leads to [second], with the same
    key and the value [v2].  The JSON renderer writes for the member,
    wherever it stands in its object, the key once and one bracketed
    region with [v1] and then [v2].  The RCL and YAML renderers write
    no bracketed region for the chain: the statement of the member has
    the value [v1] alone, and when the member is the first of its
    object, [v2] is written as a statement of its own that repeats the
    key, after the statements of the other members of the object. *)
Theorem two_values_under_one_key
    (key : string) (v1 v2 : ucl_value) (hh hh2 : ucl_ptr)
    (tabs : N) (start_tabs flag : bool) :
  let second := UclObject key v2 NULL hh2 in
  let first := UclObject key v1 (Ptr second) hh in
  (forall obj,
      ucl_elt_obj_write_json obj "" tabs start_tabs flag
      = start_text start_tabs tabs flag ++ json_open "{" flag
        ++ concat_text (map (member_text_json tabs flag) (hh_list obj))
        ++ tabs_text tabs flag ++ "}")
  /\ member_text_json tabs flag first
     = tabs_text (uint_succ tabs) flag
       ++ string_text key
       ++ (if flag then ":" else ": ")
       ++ (json_open "[" flag
           ++ elt_text_json v1 (uint_succ (uint_succ tabs)) true flag
           ++ (if flag then "," else "," ++ nl)
           ++ elt_text_json v2 (uint_succ (uint_succ tabs)) true flag
           ++ (if flag then "" else nl)
           ++ tabs_text (uint_succ tabs) flag ++ "]")
       ++ json_sep flag hh
  /\ ucl_elt_obj_write_rcl (Ptr first) "" tabs start_tabs flag
     = start_text start_tabs tabs flag
       ++ (if flag then "" else "{" ++ nl)
       ++ (statement_rcl tabs flag (c_str key) v1
           ++ members_text_rcl tabs flag hh
           ++ statement_rcl tabs flag (c_str key) v2
           ++ members_text_rcl tabs flag hh2)
       ++ tabs_text tabs flag ++ (if flag then "" else "}")
  /\ ucl_elt_obj_write_yaml (Ptr first) "" tabs start_tabs flag
     = start_text start_tabs tabs flag
       ++ (if flag then "" else ": {" ++ nl)
       ++ (statement_yaml tabs flag (c_str key) v1
           ++ members_text_yaml tabs flag hh
           ++ statement_yaml tabs flag (c_str key) v2
           ++ members_text_yaml tabs flag hh2)
       ++ tabs_text tabs flag ++ (if flag then "" else "}").
Proof.
  intros second first. repeat split.
  - intros obj. apply ucl_elt_obj_write_json_text.
  - unfold member_text_json, first, second. cbn [obj_key obj_hh_next].
    rewrite obj_text_json_eq. cbn [obj_next is_null start_text].
    rewrite !elements_text_json_cons. unfold json_sep at 1 2. cbn [is_null].
    change (elements_text_json (uint_succ tabs) flag NULL) with "".
    destruct flag; to_append; reflexivity.
  - change (ucl_elt_obj_write_rcl (Ptr first) "" tabs start_tabs flag)
      with (elt_text_rcl (UCL_OBJECT (Ptr first)) tabs start_tabs flag).
    rewrite elt_text_rcl_object. unfold first, second.
    rewrite tables_text_rcl_cons. cbn [obj_next].
    rewrite tables_text_rcl_cons. cbn [obj_next].
    rewrite !members_text_rcl_cons.
    cbn [obj_hh_next]. unfold member_text_rcl. cbn [obj_key obj_value].
    change (tables_text_rcl tabs flag NULL) with "".
    destruct flag; to_append; reflexivity.
  - change (ucl_elt_obj_write_yaml (Ptr first) "" tabs start_tabs flag)
      with (elt_text_yaml (UCL_OBJECT (Ptr first)) tabs start_tabs flag).
    rewrite elt_text_yaml_object. unfold first, second.
    rewrite tables_text_yaml_cons. cbn [obj_next].
    rewrite tables_text_yaml_cons. cbn [obj_next].
    rewrite !members_text_yaml_cons.
    cbn [obj_hh_next]. unfold member_text_yaml. cbn [obj_key obj_value].
    change (tables_text_yaml tabs flag NULL) with "".
    destruct flag; to_append; reflexivity.
Qed.

(** ** Compact JSON has no blank outside of string literals (C4) *)

Lemma lex_run_app (st : lex_state) (a b : string) :
  lex_run st (a ++ b) = lex_run (lex_run st a) b.
Proof. revert st. induction a as [|c a IH]; intros st; cbn; [reflexivity | apply IH]. Qed.

Lemma no_blank_outside_app (st : lex_state) (a b : string) :
  no_blank_outside st (a ++ b)
  = no_blank_outside st a && no_blank_outside (lex_run st a) b.
Proof.
  revert st. induction a as [|c a IH]; intros st; cbn [append no_blank_outside lex_run].
  - reflexivity.
  - rewrite IH. now rewrite andb_assoc.
Qed.

Lemma tidy_nil : tidy "".
Proof. split; reflexivity. Qed.

Lemma tidy_app (a b : string) : tidy a -> tidy b -> tidy (a ++ b).
Proof.
  intros [Ha1 Ha2] [Hb1 Hb2]. split.
  - now rewrite lex_run_app, Ha1.
  - now rewrite no_blank_outside_app, Ha1, Ha2, Hb2.
Qed.

Lemma tidy_numeral (s : string) : numeral_text s = true -> tidy s.
Proof.
  induction s as [|c s IH]; [intros _; apply tidy_nil |].
  cbn [numeral_text]. intros H. apply andb_true_iff in H. destruct H as [Hc Hs].
  destruct (IH Hs) as [H1 H2].
  apply negb_true_iff, orb_false_iff in Hc. destruct Hc as [Hc Hq].
  split; cbn [lex_run no_blank_outside lex_step]; rewrite Hq.
  - exact H1.
  - now rewrite Hc, H2.
Qed.

Lemma numeral_text_uint (d : Decimal.uint) :
  numeral_text (NilEmpty.string_of_uint d) = true.
Proof. induction d; cbn; auto. Qed.

Lemma numeral_text_printf_ld (iv : Z) : numeral_text (printf_ld iv) = true.
Proof.
  unfold printf_ld, NilZero.string_of_int, NilZero.string_of_uint.
  destruct (Z.to_int iv) as [d|d]; destruct d; cbn [numeral_text];
    try reflexivity; apply (numeral_text_uint (_ d)) || apply numeral_text_uint.
Qed.

Lemma literal_body (s : string) :
  lex_run InString (json_escape s) = InString
  /\ no_blank_outside InString (json_escape s) = true.
Proof.
  induction s as [|c s [IH1 IH2]]; [split; reflexivity |].
  cbn [json_escape]. rewrite lex_run_app, no_blank_outside_app.
  destruct c as [[] [] [] [] [] [] [] []]; cbn; auto.
Qed.

Lemma lex_run_open (s : string) :
  lex_run Outside (dq ++ s) = lex_run InString s.
Proof. reflexivity. Qed.

Lemma no_blank_outside_open (s : string) :
  no_blank_outside Outside (dq ++ s) = no_blank_outside InString s.
Proof. reflexivity. Qed.

Lemma tidy_string_text (str : string) : tidy (string_text str).
Proof.
  rewrite string_text_eq.
  destruct (literal_body (c_str str)) as [H1 H2].
  split.
  - rewrite lex_run_open, lex_run_app, H1. reflexivity.
  - rewrite no_blank_outside_open, no_blank_outside_app, H1, H2. reflexivity.
Qed.

Lemma tidy_json_sep (following : ucl_ptr) : tidy (json_sep true following).
Proof. destruct following; split; reflexivity. Qed.

Ltac tidy_split :=
  repeat match goal with |- tidy (_ ++ _) => apply tidy_app end.
Ltac tidy_literal := solve [split; reflexivity].

(** ** Pretty JSON: one level deeper is four spaces more (C4) *)

Lemma indent_lines_app (a b : string) :
  indent_lines (a ++ b) = indent_lines a ++ indent_lines b.
Proof.
  induction a as [|c a IH]; [reflexivity |].
  cbn [append indent_lines]. rewrite IH.
  destruct (Ascii.eqb c LF); reflexivity.
Qed.

Lemma indent_lines_numeral (s : string) :
  numeral_text s = true -> indent_lines s = s.
Proof.
  induction s as [|c s IH]; [reflexivity |].
  cbn [numeral_text indent_lines]. intros H.
  apply andb_true_iff in H. destruct H as [Hc Hs].
  apply negb_true_iff, orb_false_iff in Hc. destruct Hc as [Hc _].
  apply orb_false_iff in Hc. destruct Hc as [_ Hc].
  now rewrite Hc, (IH Hs).
Qed.

Lemma indent_lines_json_escape (s : string) :
  indent_lines (json_escape s) = json_escape s.
Proof.
  induction s as [|c s IH]; [reflexivity |].
  cbn [json_escape]. rewrite indent_lines_app, IH. f_equal.
  destruct c as [[] [] [] [] [] [] [] []]; reflexivity.
Qed.

Lemma indent_lines_string_text (str : string) :
  indent_lines (string_text str) = string_text str.
Proof.
  rewrite string_text_eq, !indent_lines_app, indent_lines_json_escape.
  reflexivity.
Qed.

Lemma indent_lines_spaces (n : N) : indent_lines (spaces n) = spaces n.
Proof.
  induction n as [|n IH] using N.peano_ind; [reflexivity |].
  now rewrite spaces_succ, indent_lines_app, IH.
Qed.

Lemma indent_lines_tabs_text (tabs : N) (compact : bool) :
  indent_lines (tabs_text tabs compact) = tabs_text tabs compact.
Proof.
  rewrite tabs_text_eq. destruct compact; [reflexivity | apply indent_lines_spaces].
Qed.

Lemma tabs_text_succ (tabs : N) :
  tabs_text (N.succ tabs) false = "    " ++ tabs_text tabs false.
Proof. rewrite !tabs_text_eq. apply spaces_succ. Qed.

Lemma uint_succ_small (tabs : N) :
  (tabs + 1 < UINT_MODULUS)%N -> uint_succ tabs = N.succ tabs.
Proof.
  intros H. unfold uint_succ. rewrite N.mod_small by exact H. lia.
Qed.

Lemma indent_lines_json_sep (following : ucl_ptr) :
  indent_lines (json_sep false following) = json_sep false following ++ "    ".
Proof. destruct following; reflexivity. Qed.

Lemma indent_lines_nl : indent_lines nl = nl ++ "    ".
Proof. reflexivity. Qed.

Lemma append_nil_l (s : string) : "" ++ s = s.
Proof. reflexivity. Qed.

Lemma start_text_false tabs compact : start_text false tabs compact = "".
Proof. reflexivity. Qed.

Lemma start_text_true tabs compact :
  start_text true tabs compact = tabs_text tabs compact.
Proof. reflexivity. Qed.

Lemma json_open_pretty (bracket : string) : json_open bracket false = bracket ++ nl.
Proof. reflexivity. Qed.

Lemma json_nesting_elements_cons key v next hh :
  json_nesting_elements (Ptr (UclObject key v next hh))
  = N.max (json_nesting v) (json_nesting_elements next).
Proof. reflexivity. Qed.

Lemma elements_emit_elements_cons key v next hh :
  elements_emit_elements (Ptr (UclObject key v next hh))
  = negb (is_userdata v) && elements_emit v && elements_emit_elements next.
Proof. reflexivity. Qed.

(** The two inductions on the tree. *)
Section Numerals.

(** The C library writes a double without blanks and without
    quotation marks. *)
Hypothesis printf_lf_numeral : forall dv, numeral_text (printf_lf dv) = true.

Lemma tidy_scalar v tabs start_tabs :
  is_container v = false -> tidy (elt_text_json v tabs start_tabs true).
Proof.
  intros H. rewrite (elt_text_json_scalar _ _ _ _ H).
  unfold start_text. rewrite tabs_text_eq.
  destruct v; try discriminate H; destruct start_tabs; cbn [append];
    try apply tidy_nil;
    try (apply tidy_numeral; apply numeral_text_printf_ld);
    try (apply tidy_numeral; apply printf_lf_numeral);
    try apply tidy_string_text;
    destruct bv; split; reflexivity.
Qed.

Lemma tidy_compact_all :
  (forall o, tidy_from (Ptr o))
  /\ (forall v tabs start_tabs, tidy (elt_text_json v tabs start_tabs true))
  /\ (forall p, tidy_from p).
Proof.
  apply ucl_tree_ind; try (intros; now apply tidy_scalar).
  - intros key v IHv next [_ IHn] hh [IHh _].
    assert (Helts : forall tabs,
               tidy (elements_text_json tabs true
                       (Ptr (UclObject key v next hh)))).
    { intros tabs. rewrite elements_text_json_cons.
      tidy_split; auto using tidy_json_sep. }
    split; [| exact Helts].
    intros tabs. rewrite members_text_json_cons. unfold member_text_json.
    cbn [obj_key obj_hh_next]. rewrite obj_text_json_eq, !tabs_text_eq.
    cbn [obj_next obj_value start_text].
    tidy_split; auto using tidy_json_sep, tidy_string_text, tidy_nil;
      try tidy_literal.
    destruct (is_null next); [apply IHv |].
    unfold json_open. rewrite ?tabs_text_eq.
    tidy_split; auto using tidy_nil; tidy_literal.
  - intros ov [IH _] tabs start_tabs. rewrite elt_text_json_object.
    unfold start_text, json_open. rewrite ?tabs_text_eq.
    tidy_split; auto using tidy_nil; try tidy_literal.
    destruct start_tabs; apply tidy_nil.
  - intros ov [_ IH] tabs start_tabs. rewrite elt_text_json_array.
    unfold start_text, json_open. rewrite ?tabs_text_eq.
    tidy_split; auto using tidy_nil; try tidy_literal.
    destruct start_tabs; apply tidy_nil.
  - split; intros; apply tidy_nil.
  - intros o H. exact H.
Qed.

Lemma tidy_compact_document (obj : ucl_object_t) :
  tidy (ucl_object_emit_json obj true).
Proof.
  change (ucl_object_emit_json obj true) with (obj_text_json obj 0 false true).
  rewrite obj_text_json_eq. destruct obj as [key v next hh].
  cbn [obj_next obj_value]. destruct (is_null next).
  - apply tidy_compact_all.
  - unfold start_text, json_open. rewrite ?tabs_text_eq.
    tidy_split; auto using tidy_nil; try tidy_literal.
    apply (proj1 tidy_compact_all).
Qed.


Lemma deeper_scalar v tabs :
  is_container v = false ->
  deeper_value v tabs.
Proof.
  intros Hv _ _. rewrite !(elt_text_json_scalar _ _ _ _ Hv).
  unfold start_text.
  destruct v as [ov|ov|iv|dv|sv|bv|dv|]; try discriminate Hv;
    try destruct bv; cbn [append];
    rewrite ?indent_lines_app, ?indent_lines_tabs_text, ?tabs_text_succ,
      ?indent_lines_string_text,
      ?(indent_lines_numeral _ (numeral_text_printf_ld _)),
      ?(indent_lines_numeral _ (printf_lf_numeral _)),
      ?append_assoc;
    try (split; [reflexivity | intros _; reflexivity]).
  split; [reflexivity | discriminate].
Qed.

Lemma deeper_all :
  (forall o, deeper_from (Ptr o))
  /\ (forall v tabs, deeper_value v tabs)
  /\ (forall p, deeper_from p).
Proof.
  apply ucl_tree_ind; try (intros; now apply deeper_scalar).
  - intros key v IHv next [_ IHn] hh [IHh _].
    assert (Helts : forall tabs,
               elements_emit_elements (Ptr (UclObject key v next hh)) = true ->
               (tabs + 2 + json_nesting_elements (Ptr (UclObject key v next hh))
                < UINT_MODULUS)%N ->
               "    " ++ indent_lines
                           (elements_text_json tabs false
                              (Ptr (UclObject key v next hh)))
               = elements_text_json (N.succ tabs) false
                   (Ptr (UclObject key v next hh)) ++ "    ").
    { intros tabs He Hn. cbn [elements_emit_elements json_nesting_elements] in He, Hn.
      apply andb_true_iff in He. destruct He as [He Hen].
      apply andb_true_iff in He. destruct He as [Hu Hev].
      apply negb_true_iff in Hu.
      rewrite !elements_text_json_cons.
      rewrite (uint_succ_small tabs) by lia.
      rewrite (uint_succ_small (N.succ tabs)) by lia.
      destruct (IHv (N.succ tabs) Hev ltac:(lia)) as [_ IHv'].
      rewrite (IHv' Hu).
      rewrite !indent_lines_app, indent_lines_json_sep.
      rewrite !append_assoc.
      rewrite (IHn tabs Hen ltac:(lia)). reflexivity. }
    split; [| exact Helts].
    intros tabs Hm Hn. cbn [elements_emit_members json_nesting_members] in Hm, Hn.
    apply andb_true_iff in Hm. destruct Hm as [Hm Hmh].
    rewrite !members_text_json_cons. unfold member_text_json.
    cbn [obj_key obj_hh_next].
    rewrite (uint_succ_small tabs) by lia.
    rewrite (uint_succ_small (N.succ tabs)) by lia.
    rewrite !indent_lines_app, indent_lines_tabs_text, indent_lines_string_text,
      indent_lines_json_sep.
    rewrite (tabs_text_succ (N.succ tabs)).
    change (indent_lines ": ") with ": ".
    rewrite !append_assoc.
    rewrite (IHh tabs Hmh ltac:(lia)).
    rewrite !obj_text_json_eq. cbn [obj_next obj_value].
    destruct next as [|n]; cbn [is_null].
    + rewrite (proj1 (IHv (N.succ tabs) Hm ltac:(lia))). reflexivity.
    + cbn [start_text json_open].
      rewrite !indent_lines_app, indent_lines_tabs_text, indent_lines_nl.
      rewrite (tabs_text_succ (N.succ tabs)).
      change (indent_lines "[") with "[". change (indent_lines "]") with "]".
      rewrite !append_assoc, ?append_nil_l.
      rewrite <- (append_assoc "    " (indent_lines _)).
      rewrite (Helts (N.succ tabs)).
      * now rewrite !append_assoc.
      * rewrite elements_emit_elements_cons. exact Hm.
      * rewrite json_nesting_elements_cons. lia.
  - intros ov [IH _] tabs Hv Hn. cbn [elements_emit json_nesting] in Hv, Hn.
    rewrite !elt_text_json_object, ?append_nil_l. cbn [start_text json_open].
    rewrite !indent_lines_app, !indent_lines_tabs_text, !tabs_text_succ,
      !indent_lines_nl.
    change (indent_lines "{") with "{". change (indent_lines "}") with "}".
    rewrite !append_assoc, ?append_nil_l.
    rewrite <- !(append_assoc "    " (indent_lines _)).
    rewrite (IH tabs Hv ltac:(lia)).
    split; [| intros _]; now rewrite !append_assoc.
  - intros ov [_ IH] tabs Hv Hn. cbn [elements_emit json_nesting] in Hv, Hn.
    rewrite !elt_text_json_array, ?append_nil_l. cbn [start_text json_open].
    rewrite !indent_lines_app, !indent_lines_tabs_text, !tabs_text_succ,
      !indent_lines_nl.
    change (indent_lines "[") with "[". change (indent_lines "]") with "]".
    rewrite !append_assoc, ?append_nil_l.
    rewrite <- !(append_assoc "    " (indent_lines _)).
    rewrite (IH tabs Hv ltac:(lia)).
    split; [| intros _]; now rewrite !append_assoc.
  - split; intros; reflexivity.
  - intros o H. exact H.
Qed.

End Numerals.

(** C4, as the code has it.  When the C library writes doubles
    without blanks and quotation marks: the compact JSON text of any
    tree has no space and no newline outside of its string literals;
    the indentation of level [tabs] is [tabs] times four spaces in
    the pretty mode and nothing in the compact mode;
    and in the pretty mode, for a value none of whose array or chain
    elements is a user-data node and whose levels of indentation stay
    below 2^32, the text written one level deeper is the same text with
    exactly four more spaces at the start of every line after the
    first, and at the start of the first line too when the value is
    written with its indentation. *)
Theorem compact_no_blank_pretty_four_spaces :
  (forall dv, numeral_text (printf_lf dv) = true) ->
  (forall obj, no_blank_outside Outside (ucl_object_emit_json obj true) = true)
  /\ (forall buf tabs,
        ucl_add_tabs buf tabs true = buf
        /\ ucl_add_tabs buf tabs false = buf ++ spaces tabs
        /\ spaces (N.succ tabs) = "    " ++ spaces tabs)
  /\ (forall value tabs,
        elements_emit value = true ->
        (tabs + 1 + json_nesting value < UINT_MODULUS)%N ->
        ucl_elt_write_json value "" (tabs + 1) false false
        = indent_lines (ucl_elt_write_json value "" tabs false false)
        /\ (is_userdata value = false ->
            ucl_elt_write_json value "" (tabs + 1) true false
            = "    " ++ indent_lines (ucl_elt_write_json value "" tabs true false))).
Proof.
  intros Hlf. split; [| split].
  - intros obj. apply (tidy_compact_document Hlf).
  - intros buf tabs. split; [reflexivity | split].
    + now rewrite ucl_add_tabs_app, tabs_text_eq.
    + apply spaces_succ.
  - intros value tabs He Hn. rewrite N.add_1_r.
    apply (proj1 (proj2 (deeper_all Hlf)) value tabs He Hn).
Qed.

(** * Further properties of the emitter *)

(** ** The writers only append *)

(** X1: no writer changes what the buffer holds when it is called: the
    contents after the call are the contents before it followed by the
    text the writer leaves in an empty buffer.  This holds for the
    indentation, the escaper, and the element writers of the three
    formats with the object and array writers they call. *)
Theorem writers_only_append
    (v : ucl_value) (obj : ucl_object_t) (str : string)
    (buf : UT_string) (tabs : N) (start_tabs flag : bool) :
  ucl_add_tabs buf tabs flag = buf ++ ucl_add_tabs "" tabs flag
  /\ ucl_elt_string_write_json str buf = buf ++ ucl_elt_string_write_json str ""
  /\ ucl_elt_write_json v buf tabs start_tabs flag
     = buf ++ ucl_elt_write_json v "" tabs start_tabs flag
  /\ ucl_obj_write_json obj buf tabs start_tabs flag
     = buf ++ ucl_obj_write_json obj "" tabs start_tabs flag
  /\ ucl_elt_write_rcl v buf tabs start_tabs flag
     = buf ++ ucl_elt_write_rcl v "" tabs start_tabs flag
  /\ ucl_elt_write_yaml v buf tabs start_tabs flag
     = buf ++ ucl_elt_write_yaml v "" tabs start_tabs flag.
Proof.
  repeat split.
  - apply ucl_add_tabs_app.
  - apply ucl_elt_string_write_json_frame.
  - apply ucl_elt_write_json_frame.
  - apply ucl_obj_write_json_frame.
  - apply ucl_elt_write_rcl_frame.
  - apply ucl_elt_write_yaml_frame.
Qed.

(** ** An implicit array is written as an explicit one *)

(** X2: a node with a sibling is written by [ucl_obj_write_json] exactly
    as [ucl_elt_array_write_json] writes the array whose first element
    is that node, in both modes and with or without indentation. *)
Theorem implicit_array_as_explicit
    (obj : ucl_object_t) (buf : UT_string) (tabs : N) (start_tabs compact : bool) :
  is_null (obj_next obj) = false ->
  ucl_obj_write_json obj buf tabs start_tabs compact
  = ucl_elt_array_write_json (Ptr obj) buf tabs start_tabs compact.
Proof.
  intros Hnext.
  change (ucl_elt_array_write_json (Ptr obj) buf tabs start_tabs compact)
    with (ucl_elt_write_json (UCL_ARRAY (Ptr obj)) buf tabs start_tabs compact).
  rewrite ucl_obj_write_json_frame, ucl_elt_write_json_frame.
  rewrite obj_text_json_eq, Hnext, elt_text_json_array. reflexivity.
Qed.

(** ** Items and separators *)

Lemma elements_text_json_items tabs compact p :
  elements_text_json tabs compact p
  = json_items_text compact
      (map (fun e => elt_text_json (obj_value e) (uint_succ tabs) true compact)
         (next_list p)).
Proof.
  revert p.
  refine (ucl_ptr_mut
            (fun o => elements_text_json tabs compact (Ptr o)
                      = json_items_text compact
                          (map (fun e => elt_text_json (obj_value e)
                                           (uint_succ tabs) true compact)
                             (next_list (Ptr o))))
            (fun _ => True)
            (fun p => elements_text_json tabs compact p
                      = json_items_text compact
                          (map (fun e => elt_text_json (obj_value e)
                                           (uint_succ tabs) true compact)
                             (next_list p)))
            _ _ _ _ _ _ _ _ _ _ _); try exact I; try (intros; exact I).
  - intros key v _ next IHn hh _.
    rewrite elements_text_json_cons, IHn.
    destruct next as [|[key' v' next' hh']]; unfold json_items_text, json_sep;
      cbn [next_list map obj_value String.concat is_null];
      destruct compact; rewrite ?append_nil_r, ?append_assoc; reflexivity.
  - reflexivity.
  - intros o H. exact H.
Qed.

Lemma members_text_json_items tabs compact p :
  members_text_json tabs compact p
  = json_items_text compact
      (map (fun m =>
              tabs_text (uint_succ tabs) compact
              ++ string_text (obj_key m)
              ++ (if compact then ":" else ": ")
              ++ obj_text_json m (uint_succ tabs) false compact)
         (hh_list p)).
Proof.
  revert p.
  refine (ucl_ptr_mut
            (fun o => members_text_json tabs compact (Ptr o)
                      = json_items_text compact
                          (map (fun m =>
                                  tabs_text (uint_succ tabs) compact
                                  ++ string_text (obj_key m)
                                  ++ (if compact then ":" else ": ")
                                  ++ obj_text_json m (uint_succ tabs) false compact)
                             (hh_list (Ptr o))))
            (fun _ => True)
            (fun p => members_text_json tabs compact p
                      = json_items_text compact
                          (map (fun m =>
                                  tabs_text (uint_succ tabs) compact
                                  ++ string_text (obj_key m)
                                  ++ (if compact then ":" else ": ")
                                  ++ obj_text_json m (uint_succ tabs) false compact)
                             (hh_list p)))
            _ _ _ _ _ _ _ _ _ _ _); try exact I; try (intros; exact I).
  - intros key v _ next _ hh IHh.
    rewrite members_text_json_cons. cbn [obj_hh_next]. rewrite IHh.
    unfold member_text_json.
    destruct hh as [|[key' v' next' hh']]; unfold json_items_text, json_sep;
      cbn [hh_list map obj_key obj_hh_next String.concat is_null];
      destruct compact; rewrite ?append_nil_r, ?append_assoc; reflexivity.
  - reflexivity.
  - intros o H. exact H.
Qed.

(** X3: the JSON text of an array is its elements in order with a comma
    between two elements and none after the last (in the pretty mode a
    newline after every element), between the brackets; the text of an
    object is its members in the order of the table, each one its
    quoted key, a colon and its value, separated in the same way,
    between the braces. *)
Theorem json_items_between_commas
    (ov : ucl_ptr) (tabs : N) (start_tabs compact : bool) :
  ucl_elt_array_write_json ov "" tabs start_tabs compact
  = start_text start_tabs tabs compact ++ json_open "[" compact
    ++ json_items_text compact
         (map (fun e =>
                 ucl_elt_write_json (obj_value e) "" (uint_succ tabs) true compact)
            (next_list ov))
    ++ tabs_text tabs compact ++ "]"
  /\ ucl_elt_obj_write_json ov "" tabs start_tabs compact
     = start_text start_tabs tabs compact ++ json_open "{" compact
       ++ json_items_text compact
            (map (fun m =>
                    tabs_text (uint_succ tabs) compact
                    ++ ucl_elt_string_write_json (obj_key m) ""
                    ++ (if compact then ":" else ": ")
                    ++ ucl_obj_write_json m "" (uint_succ tabs) false compact)
               (hh_list ov))
       ++ tabs_text tabs compact ++ "}".
Proof.
  split.
  - change (ucl_elt_array_write_json ov "" tabs start_tabs compact)
      with (elt_text_json (UCL_ARRAY ov) tabs start_tabs compact).
    rewrite elt_text_json_array, elements_text_json_items. reflexivity.
  - change (ucl_elt_obj_write_json ov "" tabs start_tabs compact)
      with (elt_text_json (UCL_OBJECT ov) tabs start_tabs compact).
    rewrite elt_text_json_object, members_text_json_items. reflexivity.
Qed.

(** ** Arrays in RCL and YAML *)

Lemma elements_text_rcl_list tabs p :
  elements_text_rcl tabs p
  = concat_text
      (map (fun e => elt_text_rcl (obj_value e) (uint_succ tabs) true false
                     ++ "," ++ nl)
         (next_list p)).
Proof.
  revert p.
  refine (ucl_ptr_mut
            (fun o => elements_text_rcl tabs (Ptr o)
                      = concat_text
                          (map (fun e => elt_text_rcl (obj_value e)
                                           (uint_succ tabs) true false
                                         ++ "," ++ nl)
                             (next_list (Ptr o))))
            (fun _ => True)
            (fun p => elements_text_rcl tabs p
                      = concat_text
                          (map (fun e => elt_text_rcl (obj_value e)
                                           (uint_succ tabs) true false
                                         ++ "," ++ nl)
                             (next_list p)))
            _ _ _ _ _ _ _ _ _ _ _); try exact I; try (intros; exact I).
  - intros key v _ next IHn hh _.
    rewrite elements_text_rcl_cons, IHn. cbn [next_list map obj_value].
    rewrite concat_text_cons, !append_assoc. reflexivity.
  - reflexivity.
  - intros o H. exact H.
Qed.

Lemma elements_text_yaml_list tabs p :
  elements_text_yaml tabs p
  = concat_text
      (map (fun e => elt_text_yaml (obj_value e) (uint_succ tabs) true false
                     ++ "," ++ nl)
         (next_list p)).
Proof.
  revert p.
  refine (ucl_ptr_mut
            (fun o => elements_text_yaml tabs (Ptr o)
                      = concat_text
                          (map (fun e => elt_text_yaml (obj_value e)
                                           (uint_succ tabs) true false
                                         ++ "," ++ nl)
                             (next_list (Ptr o))))
            (fun _ => True)
            (fun p => elements_text_yaml tabs p
                      = concat_text
                          (map (fun e => elt_text_yaml (obj_value e)
                                           (uint_succ tabs) true false
                                         ++ "," ++ nl)
                             (next_list p)))
            _ _ _ _ _ _ _ _ _ _ _); try exact I; try (intros; exact I).
  - intros key v _ next IHn hh _.
    rewrite elements_text_yaml_cons, IHn. cbn [next_list map obj_value].
    rewrite concat_text_cons, !append_assoc. reflexivity.
  - reflexivity.
  - intros o H. exact H.
Qed.

(** X4: the RCL and the YAML text of an array is, after the opening
    bracket and a newline, one line per element, in order, each one the
    element written one level deeper with its indentation and followed
    by a comma, the last one too; the closing bracket follows at the
    level of the array.  The flag [is_top] plays no part, and the
    indentation is written even at the top level. *)
Theorem rcl_yaml_array_lines
    (ov : ucl_ptr) (tabs : N) (start_tabs is_top : bool) :
  ucl_elt_array_write_rcl ov "" tabs start_tabs is_top
  = (if start_tabs then spaces tabs else "") ++ "[" ++ nl
    ++ concat_text
         (map (fun e =>
                 ucl_elt_write_rcl (obj_value e) "" (uint_succ tabs) true false
                 ++ "," ++ nl)
            (next_list ov))
    ++ spaces tabs ++ "]"
  /\ ucl_elt_array_write_yaml ov "" tabs start_tabs is_top
     = (if start_tabs then spaces tabs else "") ++ ": [" ++ nl
       ++ concat_text
            (map (fun e =>
                    ucl_elt_write_yaml (obj_value e) "" (uint_succ tabs) true false
                    ++ "," ++ nl)
               (next_list ov))
       ++ spaces tabs ++ "]".
Proof.
  split.
  - change (ucl_elt_array_write_rcl ov "" tabs start_tabs is_top)
      with (elt_text_rcl (UCL_ARRAY ov) tabs start_tabs is_top).
    rewrite elt_text_rcl_array, elements_text_rcl_list.
    unfold start_text. rewrite !tabs_text_eq. reflexivity.
  - change (ucl_elt_array_write_yaml ov "" tabs start_tabs is_top)
      with (elt_text_yaml (UCL_ARRAY ov) tabs start_tabs is_top).
    rewrite elt_text_yaml_array, elements_text_yaml_list.
    unfold start_text. rewrite !tabs_text_eq. reflexivity.
Qed.

(** ** Sibling chains in RCL and YAML *)

Lemma members_text_rcl_strip tabs is_top p :
  members_text_rcl tabs is_top (strip_siblings p) = members_text_rcl tabs is_top p.
Proof.
  rewrite !members_text_rcl_list. f_equal. revert p.
  refine (ucl_ptr_mut
            (fun o => map (member_text_rcl tabs is_top)
                        (hh_list (strip_siblings (Ptr o)))
                      = map (member_text_rcl tabs is_top) (hh_list (Ptr o)))
            (fun _ => True)
            (fun p => map (member_text_rcl tabs is_top) (hh_list (strip_siblings p))
                      = map (member_text_rcl tabs is_top) (hh_list p))
            _ _ _ _ _ _ _ _ _ _ _); try exact I; try (intros; exact I).
  - intros key v _ next _ hh IHh. cbn [strip_siblings hh_list map].
    now rewrite IHh.
  - reflexivity.
  - intros o H. exact H.
Qed.

Lemma members_text_yaml_strip tabs is_top p :
  members_text_yaml tabs is_top (strip_siblings p) = members_text_yaml tabs is_top p.
Proof.
  rewrite !members_text_yaml_list. f_equal. revert p.
  refine (ucl_ptr_mut
            (fun o => map (member_text_yaml tabs is_top)
                        (hh_list (strip_siblings (Ptr o)))
                      = map (member_text_yaml tabs is_top) (hh_list (Ptr o)))
            (fun _ => True)
            (fun p => map (member_text_yaml tabs is_top) (hh_list (strip_siblings p))
                      = map (member_text_yaml tabs is_top) (hh_list p))
            _ _ _ _ _ _ _ _ _ _ _); try exact I; try (intros; exact I).
  - intros key v _ next _ hh IHh. cbn [strip_siblings hh_list map].
    now rewrite IHh.
  - reflexivity.
  - intros o H. exact H.
Qed.

(** X5: the RCL and YAML object writers never read the sibling link of
    a member other than the first of the table: when the first member
    has no sibling, the text of the object is the text of the same
    object with the sibling chain of every other member cut off, so the
    values chained behind those members are not written. *)
Theorem rcl_yaml_ignore_later_siblings
    (key : string) (v : ucl_value) (hh : ucl_ptr)
    (buf : UT_string) (tabs : N) (start_tabs is_top : bool) :
  ucl_elt_obj_write_rcl (Ptr (UclObject key v NULL hh)) buf tabs start_tabs is_top
  = ucl_elt_obj_write_rcl (Ptr (UclObject key v NULL (strip_siblings hh))) buf
      tabs start_tabs is_top
  /\ ucl_elt_obj_write_yaml (Ptr (UclObject key v NULL hh)) buf tabs start_tabs is_top
     = ucl_elt_obj_write_yaml (Ptr (UclObject key v NULL (strip_siblings hh))) buf
         tabs start_tabs is_top.
Proof.
  split.
  - change (ucl_elt_obj_write_rcl ?p buf tabs start_tabs is_top)
      with (ucl_elt_write_rcl (UCL_OBJECT p) buf tabs start_tabs is_top).
    rewrite !ucl_elt_write_rcl_frame, !elt_text_rcl_object.
    rewrite !tables_text_rcl_cons, !members_text_rcl_cons.
    cbn [obj_next obj_hh_next]. rewrite members_text_rcl_strip. reflexivity.
  - change (ucl_elt_obj_write_yaml ?p buf tabs start_tabs is_top)
      with (ucl_elt_write_yaml (UCL_OBJECT p) buf tabs start_tabs is_top).
    rewrite !ucl_elt_write_yaml_frame, !elt_text_yaml_object.
    rewrite !tables_text_yaml_cons, !members_text_yaml_cons.
    cbn [obj_next obj_hh_next]. rewrite members_text_yaml_strip. reflexivity.
Qed.

(** ** More on the escaper *)

Lemma length_append (a b : string) :
  String.length (a ++ b) = String.length a + String.length b.
Proof. induction a as [|c a IH]; cbn; [reflexivity | now rewrite IH]. Qed.

Lemma length_json_escape (s : string) :
  String.length (json_escape s) = String.length s + count_special s.
Proof.
  induction s as [|c s IH]; [reflexivity |].
  cbn [json_escape count_special String.length]. rewrite length_append, IH.
  destruct c as [[] [] [] [] [] [] [] []]; cbn; lia.
Qed.

Lemma count_special_le (s : string) : count_special s <= String.length s.
Proof.
  induction s as [|c s IH]; [apply le_n |].
  cbn [count_special String.length]. destruct (is_special c); lia.
Qed.

(** X6: for a string without NUL byte the escaper appends two bytes for
    the quotation marks, one byte for each character and one more for
    each character that it escapes: at least the length plus two, at
    most twice the length plus two. *)
Theorem escaper_length (str : string) (buf : UT_string) :
  nul_free str = true ->
  String.length (ucl_elt_string_write_json str buf)
  = String.length buf + 2 + String.length str + count_special str
  /\ String.length buf + 2 + String.length str
     <= String.length (ucl_elt_string_write_json str buf)
     <= String.length buf + 2 + 2 * String.length str.
Proof.
  intros H. rewrite ucl_elt_string_write_json_app, (c_str_nul_free str H).
  rewrite !length_append, length_json_escape.
  pose proof (count_special_le str). cbn [String.length dq]. lia.
Qed.

Lemma c_str_app_nul_free (s1 s2 : string) :
  nul_free s1 = true -> c_str (s1 ++ s2) = s1 ++ c_str s2.
Proof.
  induction s1 as [|c s1 IH]; [reflexivity |].
  cbn [nul_free append]. intros H. apply andb_true_iff in H. destruct H as [Hc H].
  rewrite c_str_cons. apply negb_true_iff in Hc. rewrite Hc. now rewrite (IH H).
Qed.

Lemma c_str_app_nul (s1 s2 : string) :
  c_str (s1 ++ String NUL s2) = c_str s1.
Proof.
  induction s1 as [|c s1 IH]; [reflexivity |].
  cbn [append]. rewrite !c_str_cons, IH. reflexivity.
Qed.

Lemma json_escape_app (s1 s2 : string) :
  json_escape (s1 ++ s2) = json_escape s1 ++ json_escape s2.
Proof.
  induction s1 as [|c s1 IH]; [reflexivity |].
  cbn [append json_escape]. now rewrite IH, append_assoc.
Qed.

(** X7: the loop of the escaper reads its input from left to right and
    stops at the first NUL byte: the bytes after a NUL byte are never
    written, and for a first part without NUL byte, escaping two parts
    in a row is escaping the first and then the second. *)
Theorem escaper_loop_left_to_right (s1 s2 : string) (buf : UT_string) :
  ucl_elt_string_write_json_loop (s1 ++ String NUL s2) buf
  = ucl_elt_string_write_json_loop s1 buf
  /\ (nul_free s1 = true ->
      ucl_elt_string_write_json_loop (s1 ++ s2) buf
      = ucl_elt_string_write_json_loop s2 (ucl_elt_string_write_json_loop s1 buf)).
Proof.
  split.
  - now rewrite !escape_loop_app, c_str_app_nul.
  - intros H. rewrite !escape_loop_app, (c_str_app_nul_free _ _ H).
    rewrite json_escape_app, (c_str_nul_free _ H), append_assoc. reflexivity.
Qed.

Lemma has_char_app (c : ascii) (a b : string) :
  has_char c (a ++ b) = has_char c a || has_char c b.
Proof.
  induction a as [|x a IH]; [reflexivity |].
  cbn [append has_char]. now rewrite IH, orb_assoc.
Qed.

Lemma json_escape_no_raw_control (s : string) :
  has_char LF (json_escape s) = false
  /\ has_char CR (json_escape s) = false
  /\ has_char BS (json_escape s) = false
  /\ has_char HT (json_escape s) = false
  /\ has_char FF (json_escape s) = false.
Proof.
  induction s as [|c s (H1 & H2 & H3 & H4 & H5)]; [repeat split |].
  cbn [json_escape]. rewrite !has_char_app, H1, H2, H3, H4, H5.
  destruct c as [[] [] [] [] [] [] [] []]; repeat split; reflexivity.
Qed.

(** X8: whatever the string, the literal the escaper writes holds no
    raw newline, carriage return, backspace, tabulation or form feed,
    and it is read as one closed string literal: a reader that starts
    outside of a literal is outside again at its end. *)
Theorem escaper_literal_closed (str : string) :
  has_char LF (ucl_elt_string_write_json str "") = false
  /\ has_char CR (ucl_elt_string_write_json str "") = false
  /\ has_char BS (ucl_elt_string_write_json str "") = false
  /\ has_char HT (ucl_elt_string_write_json str "") = false
  /\ has_char FF (ucl_elt_string_write_json str "") = false
  /\ lex_run Outside (ucl_elt_string_write_json str "") = Outside.
Proof.
  rewrite ucl_elt_string_write_json_app. cbn [append].
  destruct (json_escape_no_raw_control (c_str str)) as (H1 & H2 & H3 & H4 & H5).
  rewrite !has_char_app, H1, H2, H3, H4, H5.
  repeat split; try reflexivity.
  destruct (tidy_string_text str) as [Hclosed _].
  rewrite string_text_eq in Hclosed. exact Hclosed.
Qed.

(** ** More on the indentation *)

Lemma length_spaces (n : N) : String.length (spaces n) = 4 * N.to_nat n.
Proof.
  induction n as [|n IH] using N.peano_ind; [reflexivity |].
  rewrite spaces_succ, length_append, IH, N2Nat.inj_succ. cbn [String.length]. lia.
Qed.

Lemma spaces_add (a b : N) : spaces (a + b) = spaces a ++ spaces b.
Proof.
  induction a as [|a IH] using N.peano_ind; [reflexivity |].
  rewrite N.add_succ_l, !spaces_succ, IH, append_assoc. reflexivity.
Qed.

(** X9: in the pretty mode [ucl_add_tabs] makes the buffer exactly four
    bytes longer per level, all of them spaces, and indenting by [a]
    levels and then by [b] levels is indenting by [a + b] levels; in
    the compact mode the buffer is left as it is. *)
Theorem ucl_add_tabs_levels (buf : UT_string) (a b : N) :
  String.length (ucl_add_tabs buf a false) = String.length buf + 4 * N.to_nat a
  /\ (forall c, has_char c (ucl_add_tabs "" a false) = true -> c = SP)
  /\ ucl_add_tabs (ucl_add_tabs buf a false) b false = ucl_add_tabs buf (a + b) false
  /\ ucl_add_tabs buf a true = buf.
Proof.
  repeat split.
  - now rewrite ucl_add_tabs_app, tabs_text_eq, length_append, length_spaces.
  - intros c. fold (tabs_text a false). rewrite tabs_text_eq.
    induction a as [|a IH] using N.peano_ind; [discriminate |].
    rewrite spaces_succ, has_char_app. intros H.
    apply orb_true_iff in H. destruct H as [H | H]; [| exact (IH H)].
    cbn [has_char] in H.
    destruct (Ascii.eqb_spec " "%char c) as [E | E];
      [symmetry; exact E | discriminate H].
  - rewrite !ucl_add_tabs_app, !tabs_text_eq, spaces_add, append_assoc. reflexivity.
Qed.

Lemma container_shape (start bracket items tabs closing : string) (compact : bool) :
  start ++ json_open bracket compact ++ items ++ tabs ++ closing
  = start ++ (bracket ++ ((if compact then "" else nl) ++ items ++ tabs) ++ closing).
Proof.
  unfold json_open. destruct compact; rewrite ?append_assoc; reflexivity.
Qed.

(** ** Two JSON texts of one tree

    The JSON text of a tree in the mode [c1] at one level and its text
    in the mode [c2] at another level are put together from the same
    tokens in the same order; they differ in blanks only.  A relation
    that holds for the tokens and the blanks, and is kept by
    concatenation and by brackets, holds for the two texts. *)
Section Two_texts.

Variables c1 c2 : bool.
Variable R : string -> string -> Prop.

Hypothesis R_nil : R "" "".
Hypothesis R_app : forall a a' b b', R a a' -> R b b' -> R (a ++ b) (a' ++ b').
Hypothesis R_braces : forall a a', R a a' -> R ("{" ++ a ++ "}") ("{" ++ a' ++ "}").
Hypothesis R_brackets : forall a a', R a a' -> R ("[" ++ a ++ "]") ("[" ++ a' ++ "]").
Hypothesis R_comma : R "," ",".
Hypothesis R_colon : R ":" ":".
Hypothesis R_string : forall s, R (string_text s) (string_text s).
Hypothesis R_int : forall z, R (printf_ld z) (printf_ld z).
Hypothesis R_double : forall d, R (printf_lf d) (printf_lf d).
Hypothesis R_true : R "true" "true".
Hypothesis R_false : R "false" "false".
Hypothesis R_blank_left : c1 = false -> R nl "" /\ R " " "".
Hypothesis R_blank_right : c2 = false -> R "" nl /\ R "" " ".

Lemma R_pad (a b : string) : R a "" -> R "" b -> R a b.
Proof.
  intros Ha Hb. pose proof (R_app a "" "" b Ha Hb) as H.
  rewrite (append_nil_r a) in H. exact H.
Qed.

Lemma R_spaces_left (n : N) : c1 = false -> R (spaces n) "".
Proof.
  intros H. destruct (R_blank_left H) as [_ Hs].
  induction n as [|n IH] using N.peano_ind; [exact R_nil |].
  rewrite spaces_succ.
  exact (R_app " " "" ("   " ++ spaces n) ""  Hs
           (R_app " " "" ("  " ++ spaces n) "" Hs
              (R_app " " "" (" " ++ spaces n) "" Hs
                 (R_app " " "" (spaces n) "" Hs IH)))).
Qed.

Lemma R_spaces_right (n : N) : c2 = false -> R "" (spaces n).
Proof.
  intros H. destruct (R_blank_right H) as [_ Hs].
  induction n as [|n IH] using N.peano_ind; [exact R_nil |].
  rewrite spaces_succ.
  exact (R_app "" " " "" ("   " ++ spaces n) Hs
           (R_app "" " " "" ("  " ++ spaces n) Hs
              (R_app "" " " "" (" " ++ spaces n) Hs
                 (R_app "" " " "" (spaces n) Hs IH)))).
Qed.

Lemma R_tabs (n m : N) : R (tabs_text n c1) (tabs_text m c2).
Proof.
  rewrite !tabs_text_eq. apply R_pad.
  - case_eq c1; intros E; [exact R_nil | now apply R_spaces_left].
  - case_eq c2; intros E; [exact R_nil | now apply R_spaces_right].
Qed.

Lemma R_start (s1 s2 : bool) (n m : N) :
  R (start_text s1 n c1) (start_text s2 m c2).
Proof.
  unfold start_text. apply R_pad.
  - destruct s1; [| exact R_nil].
    pose proof (R_tabs n 0) as H. rewrite (tabs_text_eq 0 c2) in H.
    destruct c2; exact H.
  - destruct s2; [| exact R_nil].
    pose proof (R_tabs 0 m) as H. rewrite (tabs_text_eq 0 c1) in H.
    destruct c1; exact H.
Qed.

Lemma R_newline : R (if c1 then "" else nl) (if c2 then "" else nl).
Proof.
  apply R_pad.
  - case_eq c1; intros E; [exact R_nil | apply (R_blank_left E)].
  - case_eq c2; intros E; [exact R_nil | apply (R_blank_right E)].
Qed.

Lemma R_space : R (if c1 then "" else " ") (if c2 then "" else " ").
Proof.
  apply R_pad.
  - case_eq c1; intros E; [exact R_nil | apply (R_blank_left E)].
  - case_eq c2; intros E; [exact R_nil | apply (R_blank_right E)].
Qed.

Lemma R_key_colon : R (if c1 then ":" else ": ") (if c2 then ":" else ": ").
Proof.
  replace (if c1 then ":" else ": ") with (":" ++ (if c1 then "" else " "))
    by (destruct c1; reflexivity).
  replace (if c2 then ":" else ": ") with (":" ++ (if c2 then "" else " "))
    by (destruct c2; reflexivity).
  apply R_app; [exact R_colon | exact R_space].
Qed.

Lemma R_json_sep (following : ucl_ptr) :
  R (json_sep c1 following) (json_sep c2 following).
Proof.
  replace (json_sep c1 following)
    with ((if is_null following then "" else ",") ++ (if c1 then "" else nl))
    by (unfold json_sep; destruct (is_null following), c1; reflexivity).
  replace (json_sep c2 following)
    with ((if is_null following then "" else ",") ++ (if c2 then "" else nl))
    by (unfold json_sep; destruct (is_null following), c2; reflexivity).
  apply R_app; [| exact R_newline].
  destruct (is_null following); [exact R_nil | exact R_comma].
Qed.

Lemma R_scalar (v : ucl_value) (t1 t2 : N) (s1 s2 : bool) :
  is_container v = false ->
  R (elt_text_json v t1 s1 c1) (elt_text_json v t2 s2 c2).
Proof.
  intros Hv. rewrite !(elt_text_json_scalar _ _ _ _ Hv).
  destruct v as [ov|ov|iv|dv|sv|bv|dv|]; try discriminate Hv;
    try (apply R_app; [apply R_start |]); auto.
  destruct bv; auto.
Qed.

Lemma related_all :
  (forall o, related_from R c1 c2 (Ptr o))
  /\ (forall v t1 s1 t2 s2,
        R (elt_text_json v t1 s1 c1) (elt_text_json v t2 s2 c2))
  /\ (forall p, related_from R c1 c2 p).
Proof.
  apply ucl_tree_ind; try (intros; now apply R_scalar).
  - intros key v IHv next [_ IHn] hh [IHh _].
    assert (Helts : forall t1 t2,
               R (elements_text_json t1 c1 (Ptr (UclObject key v next hh)))
                 (elements_text_json t2 c2 (Ptr (UclObject key v next hh)))).
    { intros t1 t2. rewrite !elements_text_json_cons.
      apply R_app; [apply IHv |]. apply R_app; [apply R_json_sep | apply IHn]. }
    split; [| exact Helts].
    intros t1 t2. rewrite !members_text_json_cons. cbn [obj_hh_next].
    apply R_app; [| apply IHh].
    unfold member_text_json. cbn [obj_key obj_hh_next].
    apply R_app; [apply R_tabs |]. apply R_app; [apply R_string |].
    apply R_app; [apply R_key_colon |]. apply R_app; [| apply R_json_sep].
    rewrite !obj_text_json_eq. cbn [obj_next obj_value].
    destruct (is_null next); [apply IHv |].
    rewrite !container_shape.
    apply R_app; [apply R_start |]. apply R_brackets.
    apply R_app; [apply R_newline |]. apply R_app; [apply Helts | apply R_tabs].
  - intros ov [IH _] t1 s1 t2 s2. rewrite !elt_text_json_object, !container_shape.
    apply R_app; [apply R_start |]. apply R_braces.
    apply R_app; [apply R_newline |]. apply R_app; [apply IH | apply R_tabs].
  - intros ov [_ IH] t1 s1 t2 s2. rewrite !elt_text_json_array, !container_shape.
    apply R_app; [apply R_start |]. apply R_brackets.
    apply R_app; [apply R_newline |]. apply R_app; [apply IH | apply R_tabs].
  - split; intros; exact R_nil.
  - intros o H. exact H.
Qed.

Lemma related_values (v : ucl_value) (t1 t2 : N) (s1 s2 : bool) :
  R (elt_text_json v t1 s1 c1) (elt_text_json v t2 s2 c2).
Proof. apply related_all. Qed.

Lemma related_objects (obj : ucl_object_t) (t1 t2 : N) (s1 s2 : bool) :
  R (obj_text_json obj t1 s1 c1) (obj_text_json obj t2 s2 c2).
Proof.
  rewrite !obj_text_json_eq. destruct (is_null (obj_next obj)).
  - apply related_all.
  - rewrite !container_shape.
    apply R_app; [apply R_start |]. apply R_brackets.
    apply R_app; [apply R_newline |].
    apply R_app; [apply (proj1 related_all obj) | apply R_tabs].
Qed.

Lemma related_documents (obj : ucl_object_t) :
  R (ucl_object_emit_json obj c1) (ucl_object_emit_json obj c2).
Proof. apply (related_objects obj 0 0 false false). Qed.

End Two_texts.

(** ** The compact mode ignores the level *)

(** X10: in the compact mode the text of a value and of a member does
    not depend on the level of indentation nor on [start_tabs]. *)
Theorem compact_ignores_levels
    (v : ucl_value) (obj : ucl_object_t) (buf : UT_string)
    (t1 t2 : N) (s1 s2 : bool) :
  ucl_elt_write_json v buf t1 s1 true = ucl_elt_write_json v buf t2 s2 true
  /\ ucl_obj_write_json obj buf t1 s1 true = ucl_obj_write_json obj buf t2 s2 true.
Proof.
  rewrite !ucl_elt_write_json_frame, !ucl_obj_write_json_frame. split; f_equal.
  - apply (related_values true true eq);
      try reflexivity; try (intros E; discriminate E); intros; subst; reflexivity.
  - apply (related_objects true true eq);
      try reflexivity; try (intros E; discriminate E); intros; subst; reflexivity.
Qed.

(** ** The compact text is one line *)

Lemma numeral_no_newline (s : string) :
  numeral_text s = true -> has_char LF s = false.
Proof.
  induction s as [|c s IH]; [reflexivity |].
  cbn [numeral_text has_char]. intros H.
  apply andb_true_iff in H. destruct H as [Hc Hs].
  apply negb_true_iff, orb_false_iff in Hc. destruct Hc as [Hc _].
  apply orb_false_iff in Hc. destruct Hc as [_ Hc].
  now rewrite Hc, (IH Hs).
Qed.

Lemma string_text_no_newline (s : string) : has_char LF (string_text s) = false.
Proof.
  rewrite string_text_eq, !has_char_app.
  now rewrite (proj1 (json_escape_no_raw_control (c_str s))).
Qed.

(** X11: when the C library writes doubles without newline, the compact
    JSON text of any tree holds no newline at all, inside of string
    literals neither: it is one line. *)
Theorem compact_is_one_line :
  (forall dv, has_char LF (printf_lf dv) = false) ->
  forall obj, has_char LF (ucl_object_emit_json obj true) = false.
Proof.
  intros Hlf obj.
  apply (related_documents true true (fun a _ => has_char LF a = false));
    try reflexivity; try (intros E; discriminate E).
  - intros a _ b _ Ha Hb. now rewrite has_char_app, Ha, Hb.
  - intros a _ Ha. cbn [append has_char]. now rewrite has_char_app, Ha.
  - intros a _ Ha. cbn [append has_char]. now rewrite has_char_app, Ha.
  - apply string_text_no_newline.
  - intros z. apply numeral_no_newline, numeral_text_printf_ld.
  - exact Hlf.
Qed.

(** ** The brackets of the JSON text match *)

Lemma bracket_run_app (st : lex_state) (stack : list ascii) (a b : string) :
  bracket_run st stack (a ++ b)
  = match bracket_run st stack a with
    | Some (st', stack') => bracket_run st' stack' b
    | None => None
    end.
Proof.
  revert st stack. induction a as [|c a IH]; intros st stack; [reflexivity |].
  cbn [append bracket_run].
  destruct st; try apply IH.
  destruct (opening c); [apply IH |].
  destruct (closing c); [| apply IH].
  destruct stack as [|o stack]; [reflexivity |].
  destruct (closes o c); [apply IH | reflexivity].
Qed.

Lemma bracket_run_plain (s : string) (stack : list ascii) :
  plain_text s = true -> bracket_run Outside stack s = Some (Outside, stack).
Proof.
  induction s as [|c s IH]; [reflexivity |].
  cbn [plain_text bracket_run]. intros H.
  apply andb_true_iff in H. destruct H as [Hc Hs].
  apply negb_true_iff in Hc.
  apply orb_false_iff in Hc. destruct Hc as [Hc Hclose].
  apply orb_false_iff in Hc. destruct Hc as [Hc Hopen].
  apply orb_false_iff in Hc. destruct Hc as [_ Hq].
  rewrite Hopen, Hclose. cbn [lex_step]. rewrite Hq. exact (IH Hs).
Qed.

Lemma bracket_run_literal_body (s : string) (stack : list ascii) :
  bracket_run InString stack (json_escape s) = Some (InString, stack).
Proof.
  induction s as [|c s IH]; [reflexivity |].
  cbn [json_escape]. rewrite bracket_run_app.
  destruct c as [[] [] [] [] [] [] [] []]; cbn; exact IH.
Qed.

Lemma bracket_run_string_text (s : string) (stack : list ascii) :
  bracket_run Outside stack (string_text s) = Some (Outside, stack).
Proof.
  rewrite string_text_eq.
  change (bracket_run Outside stack (dq ++ json_escape (c_str s) ++ dq))
    with (bracket_run InString stack (json_escape (c_str s) ++ dq)).
  rewrite bracket_run_app, bracket_run_literal_body. reflexivity.
Qed.

Lemma plain_text_uint (d : Decimal.uint) :
  plain_text (NilEmpty.string_of_uint d) = true.
Proof. induction d; cbn; auto. Qed.

Lemma plain_text_printf_ld (iv : Z) : plain_text (printf_ld iv) = true.
Proof.
  unfold printf_ld, NilZero.string_of_int, NilZero.string_of_uint.
  destruct (Z.to_int iv) as [d|d]; destruct d; cbn [plain_text];
    try reflexivity; apply (plain_text_uint (_ d)) || apply plain_text_uint.
Qed.

(** X12: when the C library writes doubles without brackets, quotation
    marks and blanks, the JSON text of any tree, compact or pretty, has
    matching brackets: read outside of string literals, every closing
    bracket or brace closes the last bracket or brace that was opened,
    none is left open at the end, and the text does not end inside of a
    string literal. *)
Theorem json_brackets_match :
  (forall dv, plain_text (printf_lf dv) = true) ->
  forall obj compact,
    bracket_run Outside [] (ucl_object_emit_json obj compact) = Some (Outside, []).
Proof.
  intros Hlf obj compact.
  apply (related_documents compact true
           (fun a _ => forall stack,
                bracket_run Outside stack a = Some (Outside, stack)));
    try (intros; reflexivity).
  - intros a _ b _ Ha Hb stack. now rewrite bracket_run_app, Ha, Hb.
  - intros a _ Ha stack.
    change (bracket_run Outside stack ("{" ++ a ++ "}"))
      with (bracket_run Outside ("{"%char :: stack) (a ++ "}")).
    rewrite bracket_run_app, Ha. reflexivity.
  - intros a _ Ha stack.
    change (bracket_run Outside stack ("[" ++ a ++ "]"))
      with (bracket_run Outside ("["%char :: stack) (a ++ "]")).
    rewrite bracket_run_app, Ha. reflexivity.
  - intros s stack. apply bracket_run_string_text.
  - intros z stack. apply bracket_run_plain, plain_text_printf_ld.
  - intros d stack. apply bracket_run_plain, Hlf.
  - intros _. split; intros; reflexivity.
  - intros E. discriminate E.
Qed.

(** ** The pretty text without its blanks is the compact text *)

Lemma strip_blanks_app (st : lex_state) (a b : string) :
  strip_blanks st (a ++ b) = strip_blanks st a ++ strip_blanks (lex_run st a) b.
Proof.
  revert st. induction a as [|c a IH]; intros st; [reflexivity |].
  cbn [append strip_blanks lex_run]. rewrite IH.
  destruct st; try reflexivity.
  destruct (Ascii.eqb c SP || Ascii.eqb c LF); reflexivity.
Qed.

Lemma strip_blanks_numeral (s : string) :
  numeral_text s = true -> strip_blanks Outside s = s.
Proof.
  induction s as [|c s IH]; [reflexivity |].
  cbn [numeral_text strip_blanks]. intros H.
  apply andb_true_iff in H. destruct H as [Hc Hs].
  apply negb_true_iff, orb_false_iff in Hc. destruct Hc as [Hc Hq].
  cbn [lex_step]. rewrite Hc, Hq, (IH Hs). reflexivity.
Qed.

Lemma strip_blanks_literal_body (s : string) :
  strip_blanks InString (json_escape s) = json_escape s.
Proof.
  induction s as [|c s IH]; [reflexivity |].
  cbn [json_escape].
  destruct c as [[] [] [] [] [] [] [] []]; cbn; rewrite IH; reflexivity.
Qed.

Lemma strip_blanks_string_text (s : string) :
  strip_blanks Outside (string_text s) = string_text s.
Proof.
  rewrite string_text_eq.
  change (strip_blanks Outside (dq ++ json_escape (c_str s) ++ dq))
    with (dq ++ strip_blanks InString (json_escape (c_str s) ++ dq)).
  rewrite strip_blanks_app, strip_blanks_literal_body.
  rewrite (proj1 (literal_body (c_str s))). reflexivity.
Qed.

(** X13: when the C library writes doubles without blanks and quotation
    marks, the pretty JSON text of any tree differs from its compact
    text in blanks outside of string literals only: with the spaces and
    newlines outside of literals taken away, the pretty text is the
    compact text. *)
Theorem pretty_without_blanks_is_compact :
  (forall dv, numeral_text (printf_lf dv) = true) ->
  forall obj,
    strip_blanks Outside (ucl_object_emit_json obj false)
    = ucl_object_emit_json obj true.
Proof.
  intros Hlf obj.
  apply (related_documents false true
           (fun a b => lex_run Outside a = Outside /\ strip_blanks Outside a = b));
    try (split; reflexivity).
  - intros a a' b b' [Ha1 Ha2] [Hb1 Hb2]. split.
    + now rewrite lex_run_app, Ha1.
    + now rewrite strip_blanks_app, Ha1, Ha2, Hb2.
  - intros a a' [Ha1 Ha2]. split.
    + change (lex_run Outside ("{" ++ a ++ "}")) with (lex_run Outside (a ++ "}")).
      now rewrite lex_run_app, Ha1.
    + change (strip_blanks Outside ("{" ++ a ++ "}"))
        with ("{" ++ strip_blanks Outside (a ++ "}")).
      now rewrite strip_blanks_app, Ha1, Ha2.
  - intros a a' [Ha1 Ha2]. split.
    + change (lex_run Outside ("[" ++ a ++ "]")) with (lex_run Outside (a ++ "]")).
      now rewrite lex_run_app, Ha1.
    + change (strip_blanks Outside ("[" ++ a ++ "]"))
        with ("[" ++ strip_blanks Outside (a ++ "]")).
      now rewrite strip_blanks_app, Ha1, Ha2.
  - intros s. split; [apply tidy_string_text | apply strip_blanks_string_text].
  - intros z. split.
    + apply tidy_numeral, numeral_text_printf_ld.
    + apply strip_blanks_numeral, numeral_text_printf_ld.
  - intros d. split.
    + apply tidy_numeral, Hlf.
    + apply strip_blanks_numeral, Hlf.
  - intros _. split; split; reflexivity.
  - intros E. discriminate E.
Qed.

(** ** The top level in RCL and YAML *)

(** X14: for a root that is an object, the RCL and the YAML document is
    the statements of the members in turn and nothing else: no brace
    and no indentation, each statement the bytes of the key, the
    separator, the value written at level 0 and the end of the
    statement.  The key and the links of the root itself are not read. *)
Theorem top_level_statements (key : string) (ov next hh : ucl_ptr) :
  ucl_object_emit_rcl (UclObject key (UCL_OBJECT ov) next hh)
  = concat_text
      (map (fun m =>
              c_str (obj_key m)
              ++ (if is_container (obj_value m) then " " else " = ")
              ++ ucl_elt_write_rcl (obj_value m) "" 0 false false
              ++ (if is_container (obj_value m) then nl else ";" ++ nl))
         (chained_members ov))
  /\ ucl_object_emit_yaml (UclObject key (UCL_OBJECT ov) next hh)
     = concat_text
         (map (fun m =>
                 c_str (obj_key m)
                 ++ (if is_container (obj_value m) then " " else " : ")
                 ++ ucl_elt_write_yaml (obj_value m) "" 0 false false
                 ++ (if is_container (obj_value m) then nl else "," ++ nl))
            (chained_members ov)).
Proof.
  split.
  - change (ucl_object_emit_rcl (UclObject key (UCL_OBJECT ov) next hh))
      with (ucl_elt_obj_write_rcl ov "" 0 false true).
    rewrite ucl_elt_obj_write_rcl_text, tabs_text_eq.
    cbn [start_text append]. rewrite append_nil_r. reflexivity.
  - change (ucl_object_emit_yaml (UclObject key (UCL_OBJECT ov) next hh))
      with (ucl_elt_obj_write_yaml ov "" 0 false true).
    rewrite ucl_elt_obj_write_yaml_text, tabs_text_eq.
    cbn [start_text append]. rewrite append_nil_r. reflexivity.
Qed.

(** ** Different strings, different literals *)

Lemma append_cancel_l (a b c : string) : a ++ b = a ++ c -> b = c.
Proof.
  induction a as [|x a IH]; cbn [append]; [trivial |].
  intros H. injection H as H. exact (IH H).
Qed.

(** X15: two different strings (without NUL byte) never get the same
    literal from the escaper. *)
Theorem escaper_injective (s1 s2 : string) (buf : UT_string) :
  nul_free s1 = true -> nul_free s2 = true ->
  s1 <> s2 ->
  ucl_elt_string_write_json s1 buf <> ucl_elt_string_write_json s2 buf.
Proof.
  intros H1 H2 Hneq Heq. apply Hneq.
  rewrite !ucl_elt_string_write_json_app in Heq.
  rewrite (c_str_nul_free _ H1), (c_str_nul_free _ H2) in Heq.
  apply append_cancel_l, append_cancel_l in Heq.
  assert (Hbody : strip_closing_quote (json_escape s1 ++ dq)
                  = strip_closing_quote (json_escape s2 ++ dq)) by now rewrite Heq.
  rewrite !strip_closing_quote_app in Hbody. injection Hbody as Hbody.
  assert (Hback : json_unescape (json_escape s1) = json_unescape (json_escape s2))
    by now rewrite Hbody.
  rewrite !json_unescape_escape in Hback. now injection Hback.
Qed.

End Emitter.


Arguments Return {A} a.
Arguments Continue {A}.

(** * The theorems on sample inputs *)

(** The escaper on a string with every escaped character. *)
Lemma escaper_quotes_and_escapes_sample :
  nul_free Samples.special_string = true
  /\ ucl_elt_string_write_json Samples.special_string ""
     = dq ++ "a\n\r\b\t\f\\" ++ String BACKSLASH dq
       ++ String "001" (String "233" "z") ++ dq.
Proof.
  split; [reflexivity |].
  exact (escaper_quotes_and_escapes Samples.special_string "" eq_refl).
Defined.

(** The round trip on the same string, and a plain string. *)
Lemma escaper_round_trip_sample :
  parse_json_string (ucl_elt_string_write_json Samples.special_string "")
  = Some Samples.special_string
  /\ ucl_elt_string_write_json "plain text" "" = dq ++ "plain text" ++ dq.
Proof.
  split.
  - exact (proj1 (escaper_round_trip Samples.special_string eq_refl)).
  - exact (proj2 (escaper_round_trip "plain text" eq_refl) eq_refl).
Defined.

(** The dispatcher with the selectors 0, 1 and 3: the value 2 gives
    the RCL text, the value 1 the compact JSON text. *)
Lemma emit_dispatch_sample :
  ucl_object_emit Samples.printf_const Samples.printf4_const
    Samples.EMIT_JSON Samples.EMIT_JSON_COMPACT Samples.EMIT_YAML
    Samples.ab_tree 2
  = Some (ucl_object_emit_rcl Samples.printf4_const Samples.ab_tree)
  /\ ucl_object_emit Samples.printf_const Samples.printf4_const
       Samples.EMIT_JSON Samples.EMIT_JSON_COMPACT Samples.EMIT_YAML
       Samples.ab_tree 1
     = Some (ucl_object_emit_json Samples.printf_const Samples.ab_tree true).
Proof.
  assert (Hjc : Samples.EMIT_JSON <> Samples.EMIT_JSON_COMPACT) by discriminate.
  assert (Hjy : Samples.EMIT_JSON <> Samples.EMIT_YAML) by discriminate.
  assert (Hcy : Samples.EMIT_JSON_COMPACT <> Samples.EMIT_YAML) by discriminate.
  split.
  - apply (emit_dispatch Samples.printf_const Samples.printf4_const
             Samples.EMIT_JSON Samples.EMIT_JSON_COMPACT Samples.EMIT_YAML
             Samples.ab_tree 2 Hjc Hjy Hcy); discriminate.
  - apply (emit_dispatch Samples.printf_const Samples.printf4_const
             Samples.EMIT_JSON Samples.EMIT_JSON_COMPACT Samples.EMIT_YAML
             Samples.ab_tree 1 Hjc Hjy Hcy); reflexivity.
Defined.

(** An object whose first key has a space, a quotation mark and a
    tabulation: RCL writes the key as it is, JSON quotes and escapes it. *)
Lemma keys_raw_in_rcl_yaml_quoted_in_json_sample :
  ucl_elt_obj_write_rcl Samples.printf4_const Samples.odd_key_object "" 0 false true
  = "a " ++ dq ++ String HT "b" ++ " = 7;" ++ nl ++ "c {" ++ nl ++ "}" ++ nl
  /\ ucl_elt_obj_write_yaml Samples.printf4_const Samples.odd_key_object "" 0 false true
     = "a " ++ dq ++ String HT "b" ++ " : 7," ++ nl ++ "c : {" ++ nl ++ "}" ++ nl
  /\ ucl_elt_obj_write_json Samples.printf_const Samples.odd_key_object "" 0 false true
     = "{" ++ dq ++ "a " ++ String BACKSLASH dq ++ "\tb" ++ dq ++ ":7,"
       ++ dq ++ "c" ++ dq ++ ":{}}".
Proof.
  exact (keys_raw_in_rcl_yaml_quoted_in_json
           Samples.printf_const Samples.printf4_const
           Samples.odd_key_object 0 false true eq_refl).
Defined.

(** The compact and the pretty text of the sample object. *)
Lemma compact_no_blank_pretty_four_spaces_sample :
  no_blank_outside Outside
    (ucl_object_emit_json Samples.printf_const Samples.ab_tree true) = true
  /\ ucl_elt_write_json Samples.printf_const (obj_value Samples.ab_tree) ""
       (0 + 1) false false
     = indent_lines
         (ucl_elt_write_json Samples.printf_const (obj_value Samples.ab_tree) ""
            0 false false)
  /\ ucl_elt_write_json Samples.printf_const (obj_value Samples.ab_tree) ""
       (0 + 1) true false
     = "    "
       ++ indent_lines
            (ucl_elt_write_json Samples.printf_const (obj_value Samples.ab_tree) ""
               0 true false).
Proof.
  destruct (compact_no_blank_pretty_four_spaces Samples.printf_const
              (fun _ => eq_refl)) as [Hcompact [_ Hpretty]].
  split; [apply Hcompact |].
  destruct (Hpretty (obj_value Samples.ab_tree) 0%N eq_refl eq_refl)
    as [Hrest Hfirst].
  split; [exact Hrest | exact (Hfirst eq_refl)].
Defined.

(** The check for blanks does reject text: the pretty text of the
    sample object has blanks outside of its literals, while the space
    of a key stays inside a literal of the compact text. *)
Example pretty_text_has_blanks :
  no_blank_outside Outside
    (ucl_object_emit_json Samples.printf_const Samples.ab_tree false) = false
  /\ no_blank_outside Outside
       (ucl_elt_obj_write_json Samples.printf_const Samples.odd_key_object ""
          0 false true) = true.
Proof. split; reflexivity. Qed.

(** * Where the specification and the code part *)

(** C1 fails for RCL and YAML: for the object with the values 1 and 2
    under the key [k] both write two statements with the key, and no
    bracket at all. *)
Lemma chained_values_not_an_array_in_rcl :
  ucl_object_emit_rcl Samples.printf4_const Samples.twice_k
  = "k = 1;" ++ nl ++ "k = 2;" ++ nl
  /\ occurrences "[" (ucl_object_emit_rcl Samples.printf4_const Samples.twice_k) = 0
  /\ occurrences "k" (ucl_object_emit_rcl Samples.printf4_const Samples.twice_k) = 2
  /\ ucl_object_emit_yaml Samples.printf4_const Samples.twice_k
     = "k : 1," ++ nl ++ "k : 2," ++ nl
  /\ occurrences "[" (ucl_object_emit_yaml Samples.printf4_const Samples.twice_k) = 0
  /\ occurrences "k" (ucl_object_emit_yaml Samples.printf4_const Samples.twice_k) = 2.
Proof. repeat split; reflexivity. Qed.

(** The same object in JSON, for comparison: one key, one array. *)
Example chained_values_one_array_in_json :
  ucl_object_emit_json Samples.printf_const Samples.twice_k true
  = "{" ++ dq ++ "k" ++ dq ++ ":[1,2]}".
Proof. reflexivity. Qed.

(** When the key with two values is not the first of its object, RCL
    and YAML write the first value only. *)
Example second_value_lost_after_first_member :
  ucl_object_emit_rcl Samples.printf4_const Samples.a_then_twice_k
  = "a = 0;" ++ nl ++ "k = 1;" ++ nl
  /\ ucl_object_emit_yaml Samples.printf4_const Samples.a_then_twice_k
     = "a : 0," ++ nl ++ "k : 1," ++ nl
  /\ ucl_object_emit_json Samples.printf_const Samples.a_then_twice_k true
     = "{" ++ dq ++ "a" ++ dq ++ ":0," ++ dq ++ "k" ++ dq ++ ":[1,2]}".
Proof. repeat split; reflexivity. Qed.

(** C4 fails on an array with a user-data element: its line has the
    separator and no indentation, whatever the level. *)
Lemma userdata_line_not_indented :
  ucl_elt_write_json Samples.printf_const (obj_value Samples.userdata_then_one) ""
    0 false false
  = "[" ++ nl ++ "," ++ nl ++ "    1" ++ nl ++ "]"
  /\ ucl_elt_write_json Samples.printf_const (obj_value Samples.userdata_then_one) ""
       1 false false
     = "[" ++ nl ++ "," ++ nl ++ "        1" ++ nl ++ "    ]"
  /\ ucl_elt_write_json Samples.printf_const (obj_value Samples.userdata_then_one) ""
       1 false false
     <> indent_lines
          (ucl_elt_write_json Samples.printf_const
             (obj_value Samples.userdata_then_one) "" 0 false false).
Proof. repeat split; try reflexivity. discriminate. Qed.

(** C7 fails on the same array: the comma of the user-data element is
    written, so the text is not the one of the array without it. *)
Lemma userdata_comma_still_written :
  ucl_object_emit_json Samples.printf_const Samples.userdata_then_one true = "[,1]"
  /\ ucl_object_emit_json Samples.printf_const Samples.only_one true = "[1]"
  /\ ucl_object_emit_rcl Samples.printf4_const Samples.userdata_then_one
     = "[" ++ nl ++ "," ++ nl ++ "    1," ++ nl ++ "]"
  /\ ucl_object_emit_rcl Samples.printf4_const Samples.only_one
     = "[" ++ nl ++ "    1," ++ nl ++ "]"
  /\ ucl_object_emit_json Samples.printf_const Samples.userdata_then_one true
     <> ucl_object_emit_json Samples.printf_const Samples.only_one true
  /\ ucl_object_emit_rcl Samples.printf4_const Samples.userdata_then_one
     <> ucl_object_emit_rcl Samples.printf4_const Samples.only_one.
Proof. repeat split; try reflexivity; discriminate. Qed.

(** * The further properties on sample inputs *)

(** The member [k] with its two values, as an implicit and as an
    explicit array. *)
Lemma implicit_array_as_explicit_sample :
  ucl_obj_write_json Samples.printf_const Samples.k_member "" 0 false true
  = "[1,2]"
  /\ ucl_elt_array_write_json Samples.printf_const (Ptr Samples.k_member) ""
       0 false true
     = "[1,2]".
Proof.
  split; [reflexivity |].
  rewrite <- (implicit_array_as_explicit Samples.printf_const Samples.k_member
                "" 0 false true eq_refl).
  reflexivity.
Defined.

(** The length of the literal for the string with every escaped
    character: 11 characters, 7 of them escaped. *)
Lemma escaper_length_sample :
  String.length (ucl_elt_string_write_json Samples.special_string "") = 0 + 2 + 11 + 7
  /\ 0 + 2 + 11 <= String.length (ucl_elt_string_write_json Samples.special_string "")
     <= 0 + 2 + 2 * 11.
Proof.
  exact (escaper_length Samples.special_string "" eq_refl).
Defined.

(** The loop on a string in two parts, and on a string with a NUL byte. *)
Lemma escaper_loop_left_to_right_sample :
  ucl_elt_string_write_json_loop ("ab" ++ String NUL "cd") "" = "ab"
  /\ ucl_elt_string_write_json_loop ("a" ++ String LF "b") ""
     = ucl_elt_string_write_json_loop (String LF "b")
         (ucl_elt_string_write_json_loop "a" "").
Proof.
  split.
  - rewrite (proj1 (escaper_loop_left_to_right "ab" "cd" "")). reflexivity.
  - exact (proj2 (escaper_loop_left_to_right "a" (String LF "b") "") eq_refl).
Defined.

(** Two levels of indentation hold spaces only. *)
Lemma ucl_add_tabs_levels_sample :
  String.length (ucl_add_tabs "ab" 2 false) = 2 + 4 * 2
  /\ SP = SP
  /\ ucl_add_tabs (ucl_add_tabs "ab" 2 false) 3 false = ucl_add_tabs "ab" 5 false.
Proof.
  destruct (ucl_add_tabs_levels "ab" 2 3) as (Hlen & Hsp & Hadd & _).
  split; [exact Hlen | split; [| exact Hadd]].
  exact (Hsp SP eq_refl).
Defined.

(** The compact text of the sample object is one line. *)
Lemma compact_is_one_line_sample :
  has_char LF (ucl_object_emit_json Samples.printf_const Samples.ab_tree true) = false.
Proof.
  exact (compact_is_one_line Samples.printf_const (fun _ => eq_refl) Samples.ab_tree).
Defined.

(** The brackets of the sample object match in both modes, and the
    reader of brackets does reject text. *)
Lemma json_brackets_match_sample :
  bracket_run Outside []
    (ucl_object_emit_json Samples.printf_const Samples.ab_tree false)
  = Some (Outside, [])
  /\ bracket_run Outside []
       (ucl_object_emit_json Samples.printf_const Samples.userdata_then_one true)
     = Some (Outside, [])
  /\ bracket_run Outside [] "[}" = None
  /\ bracket_run Outside [] "[" = Some (Outside, ["["%char]).
Proof.
  split; [| split; [| split; reflexivity]].
  - exact (json_brackets_match Samples.printf_const (fun _ => eq_refl)
             Samples.ab_tree false).
  - exact (json_brackets_match Samples.printf_const (fun _ => eq_refl)
             Samples.userdata_then_one true).
Defined.

(** The pretty text of the sample object, without its blanks. *)
Lemma pretty_without_blanks_is_compact_sample :
  strip_blanks Outside
    (ucl_object_emit_json Samples.printf_const Samples.ab_tree false)
  = "{" ++ dq ++ "a" ++ dq ++ ":1," ++ dq ++ "b" ++ dq ++ ":["
    ++ dq ++ "x" ++ dq ++ ",true]}".
Proof.
  exact (pretty_without_blanks_is_compact Samples.printf_const (fun _ => eq_refl)
           Samples.ab_tree).
Defined.

(** Two strings that differ in a character the escaper replaces. *)
Lemma escaper_injective_sample :
  ucl_elt_string_write_json (String LF "") ""
  <> ucl_elt_string_write_json "\n" "".
Proof.
  apply (escaper_injective (String LF "") "\n" "" eq_refl eq_refl). discriminate.
Defined.

(** In JSON the values chained behind a later member are written, in
    RCL they are not: the text is the one of the table without them. *)
Example later_siblings_sample :
  ucl_object_emit_rcl Samples.printf4_const Samples.a_then_twice_k
  = ucl_object_emit_rcl Samples.printf4_const
      (Samples.root
         (UCL_OBJECT
            (Samples.node "a" (UCL_INT 0) NULL
               (Samples.node "k" (UCL_INT 1) NULL NULL)))).
Proof. reflexivity. Qed.
